(** * Time Invariant Portfolio Protection (TIPP)

    A shallow embedding of the two Cython implementations of the class
    [TIPP] found in the repository:

    - [Incremental]: src/unnamed/part_000.  The constructor validates the
      lengths of the three series; [run] works on local memoryviews and
      recomputes a running discount factor at every iteration.
    - [Vectorized]: src/pyinsurance/portfolio/tipp_.pyx.  The length check is
      commented out; [run] precomputes the whole discount array from the
      attribute [_compounded_period] and decrements that attribute in place.

    Numbers.  The code computes in IEEE binary64.  The code is embedded
    twice.

    - In [Incremental], [Vectorized] and [Core] a number is an exact rational
      ([Q]) and the C function [pow] is a parameter; the general theorems
      are proved there, for any interpretation of [pow].  They are stated
      on what an iteration writes and compares, with every stored
      expression as the code writes it ([p + (c - p)], not [c]).  Rounding,
      infinities and NaN are not in this reading, and [x / 0] is [0] (the
      convention of [Q]).
    - In [B64] the same code computes on the kernel's binary64 floats.  It
      is executable, and runs the code on concrete inputs where rounding or
      a NaN decides what the arrays hold.  What exact arithmetic would grant
      beyond the expressions stored ([p + (c - p) = c],
      [n / f - (n - 1) / f = 1 / f], an order on values that may be NaN)
      fails there. *)

From Stdlib Require Import QArith Qpower Qround Lqa Lia ZArith String.
From Stdlib Require Import PrimFloat Uint63.
From stdpp Require Import base option list.

Local Open Scope Q_scope.

(** ** Arithmetic of the code *)

(** [x < y], [x > y] and [x >= y] as the boolean tests of the code. *)
Definition Qltb (x y : Q) : bool := negb (Qle_bool y x).
Definition Qgtb (x y : Q) : bool := Qltb y x.
Definition Qgeb (x y : Q) : bool := Qle_bool y x.

(** [fmax] and [fmin] of libc.math. *)
Definition fmax (x y : Q) : Q := if Qltb x y then y else x.
Definition fmin (x y : Q) : Q := if Qltb y x then y else x.

(** An array length used as a number ([n / freq]). *)
Definition of_size (n : nat) : Q := inject_Z (Z.of_nat n).

(** [pow] where it is a rational function of the base: an integral exponent
    [y] gives [x ^ y] exactly, and so does the base 1 with any exponent.  It
    is used only to evaluate the code on concrete inputs that keep to these
    two cases: [freq = 1], where every exponent [n / freq - k / freq] is an
    integer, or [rf = 0], where every base is 1 (a fractional exponent is
    rounded down, which leaves [1 ^ y = 1]). *)
Definition pow_int (x y : Q) : Q := Qpower x (Qfloor y).

(** ** Exceptions *)

Inductive exn :=
| ValueError (msg : string)
| IndexError
| TypeError
| ZeroDivisionError.

Inductive result (A : Type) :=
| Ok (a : A)
| Raise (e : exn).
Arguments Ok {A} a.
Arguments Raise {A} e.

#[global] Instance result_ret : MRet result := @Ok.
#[global] Instance result_bind : MBind result :=
  fun A B f m => match m with Ok a => f a | Raise e => Raise e end.

(** ** Arrays *)

(** Unchecked read of a typed memoryview ([boundscheck=False]).  Inside the
    bounds it is the element; the default stands for whatever an
    out-of-bounds read would find. *)
Definition rd (a : list Q) (i : nat) : Q := default 0 (a !! i).

(** [a[i]] and [a[i] = x] on an attribute holding a NumPy array or [None]:
    Python-level indexing, which raises. *)
Definition getitem (a : option (list Q)) (i : nat) : result Q :=
  match a with
  | None => Raise TypeError
  | Some l => match l !! i with Some x => Ok x | None => Raise IndexError end
  end.

Definition setitem (a : option (list Q)) (i : nat) (x : Q) : result (option (list Q)) :=
  match a with
  | None => Raise TypeError
  | Some l => if decide (i < length l)%nat then Ok (Some (<[i:=x]> l)) else Raise IndexError
  end.

(** Element [i] of an output attribute, when it is set and long enough. *)
Definition item (a : option (list Q)) (i : nat) : option Q :=
  match a with Some l => l !! i | None => None end.

(** [for i in range(1, 1 + k)] over a fallible body. *)
Fixpoint for_in {S : Type} (body : nat -> S -> result S) (l : list nat) (s : S) : result S :=
  match l with
  | [] => Ok s
  | i :: l' => match body i s with Ok s' => for_in body l' s' | Raise e => Raise e end
  end.

(** * src/unnamed/part_000 *)
Module Incremental.

Record TIPP := mkTIPP {
  _capital : Q;
  _multiplier : Q;
  _rr : list Q;
  _rf : list Q;
  _br : list Q;
  _lock_in : Q;
  _min_risk_req : Q;
  _min_capital_req : Q;
  _freq : Q;
  _portfolio : option (list Q);
  _ref_capital : option (list Q);
  _margin_trigger : option (list Q);
  _floor : option (list Q);
  _compounded_period : Q }.

(** [TIPP.__init__]; [freq] defaults to 252 in the source. *)
Definition __init__ (capital multiplier : Q) (rr rf br : list Q)
    (lock_in min_risk_req min_capital_req freq : Q) : result TIPP :=
  let rr_len := length rr in
  let rf_len := length rf in
  let br_len := length br in
  if negb (rr_len =? rf_len)%nat || negb (rr_len =? br_len)%nat
  then Raise (ValueError "All rate parameters must have the same length")
  else Ok {| _capital := capital;
             _multiplier := multiplier;
             _rr := rr;
             _rf := rf;
             _br := br;
             _lock_in := lock_in;
             _min_risk_req := min_risk_req;
             _min_capital_req := min_capital_req;
             _freq := freq;
             _portfolio := None;
             _ref_capital := None;
             _margin_trigger := None;
             _floor := None;
             _compounded_period := of_size (length rr) / freq |}.

(** The properties. *)
Definition portfolio (self : TIPP) := _portfolio self.
Definition ref_capital (self : TIPP) := _ref_capital self.
Definition margin_trigger (self : TIPP) := _margin_trigger self.
Definition floor (self : TIPP) := _floor self.
Definition compounded_period (self : TIPP) := _compounded_period self.

(** The locals of [run] that the loop updates. *)
Record frame := mkFrame {
  portfolio_view : list Q;
  ref_capital_view : list Q;
  margin_trigger_view : list Q;
  floor_view : list Q;
  local_compounded_period : Q;
  discount_factor : Q }.

Section Run.
Variable pow : Q -> Q -> Q.
Variable self : TIPP.

(** Lines 115-130: the locals before the loop. *)
Definition run_init : frame :=
  let n := length (_rr self) in
  let compounded_period := of_size n / _freq self in
  {| portfolio_view := (fun x => x * _capital self) <$> replicate n 1;
     ref_capital_view := (fun x => x * _capital self) <$> replicate n 1;
     margin_trigger_view := replicate n 0;
     floor_view := (fun x => x * (_capital self * _min_capital_req self)) <$> replicate n 1;
     local_compounded_period := compounded_period;
     discount_factor := pow (1 + rd (_rf self) 0 * _freq self / 252) compounded_period |}.

(** Lines 133-137: update reference capital. *)
Definition update_ref_capital (i : nat) (f : frame) : frame :=
  let ref_capital_view' :=
    if Qgeb (rd (portfolio_view f) (i - 1))
            ((1 + _lock_in self) * rd (ref_capital_view f) (i - 1))
    then <[i := rd (portfolio_view f) (i - 1)]> (ref_capital_view f)
    else <[i := rd (ref_capital_view f) (i - 1)]> (ref_capital_view f) in
  mkFrame (portfolio_view f) ref_capital_view' (margin_trigger_view f) (floor_view f)
          (local_compounded_period f) (discount_factor f).

(** Lines 139-144: update floor. *)
Definition update_floor (i : nat) (f : frame) : frame :=
  let floor_cap := rd (portfolio_view f) (i - 1) * discount_factor f in
  let floor_view' :=
    if Qgtb floor_cap (rd (floor_view f) (i - 1))
    then <[i := floor_cap]> (floor_view f)
    else <[i := rd (floor_view f) (i - 1)]> (floor_view f) in
  mkFrame (portfolio_view f) (ref_capital_view f) (margin_trigger_view f) floor_view'
          (local_compounded_period f) (discount_factor f).

(** Lines 146-151: check for liquidity injection. *)
Definition inject_liquidity (i : nat) (f : frame) : frame :=
  if Qltb (rd (portfolio_view f) (i - 1))
          (rd (ref_capital_view f) (i - 1) * _min_capital_req self)
  then
    let capital_to_inject :=
      rd (ref_capital_view f) (i - 1) * _min_capital_req self - rd (portfolio_view f) (i - 1) in
    let ref_capital_view' :=
      <[i := rd (ref_capital_view f) (i - 1) - capital_to_inject]> (ref_capital_view f) in
    let portfolio_view' :=
      <[(i - 1)%nat := rd (portfolio_view f) (i - 1) + capital_to_inject]> (portfolio_view f) in
    let margin_trigger_view' := <[i := capital_to_inject]> (margin_trigger_view f) in
    mkFrame portfolio_view' ref_capital_view' margin_trigger_view' (floor_view f)
            (local_compounded_period f) (discount_factor f)
  else f.

(** Lines 154-158: the local [risk_allocation], from the frame as the
    injection step leaves it. *)
Definition risk_allocation (i : nat) (f : frame) : Q :=
  let magnet := rd (portfolio_view f) (i - 1) - rd (floor_view f) (i - 1) in
  fmax (fmin (_multiplier self * magnet) (rd (portfolio_view f) (i - 1)))
       (_min_risk_req self * rd (portfolio_view f) (i - 1)).

(** Lines 159-165: update portfolio, then the running exponent and the
    discount factor. *)
Definition update_portfolio (i : nat) (f : frame) : frame :=
  let risk_allocation := risk_allocation i f in
  let risk_free_allocation := rd (portfolio_view f) (i - 1) - risk_allocation in
  let portfolio_view' :=
    <[i := risk_allocation * (1 + rd (_rr self) i)
           + risk_free_allocation * (1 + rd (_rf self) i)]> (portfolio_view f) in
  let compounded_period := local_compounded_period f - 1 / _freq self in
  mkFrame portfolio_view' (ref_capital_view f) (margin_trigger_view f) (floor_view f)
          compounded_period
          (pow (1 + rd (_rf self) i * _freq self / 252) compounded_period).

(** The frame on which iteration [i] computes its allocation. *)
Definition before_allocation (i : nat) (f : frame) : frame :=
  inject_liquidity i (update_floor i (update_ref_capital i f)).

(** One iteration of [for i in range(1, n)]. *)
Definition loop_body (i : nat) (f : frame) : frame :=
  update_portfolio i (before_allocation i f).

(** The frame after the first [k] iterations. *)
Definition run_loop (k : nat) : frame :=
  fold_left (fun f i => loop_body i f) (seq 1 k) run_init.

(** [TIPP.run]: the loop runs for [i = 1 .. n - 1]; lines 167-170 store the
    four views.  The attribute [_compounded_period] is not assigned. *)
Definition run : TIPP :=
  let n := length (_rr self) in
  let f := run_loop (n - 1) in
  {| _capital := _capital self;
     _multiplier := _multiplier self;
     _rr := _rr self;
     _rf := _rf self;
     _br := _br self;
     _lock_in := _lock_in self;
     _min_risk_req := _min_risk_req self;
     _min_capital_req := _min_capital_req self;
     _freq := _freq self;
     _portfolio := Some (portfolio_view f);
     _ref_capital := Some (ref_capital_view f);
     _margin_trigger := Some (margin_trigger_view f);
     _floor := Some (floor_view f);
     _compounded_period := _compounded_period self |}.

End Run.

(** What the constructor guarantees and [run] keeps. *)
Definition wf (self : TIPP) : Prop :=
  length (_rf self) = length (_rr self) /\ length (_br self) = length (_rr self).

End Incremental.

(** * src/pyinsurance/portfolio/tipp_.pyx *)
Module Vectorized.

Record TIPP := mkTIPP {
  _capital : Q;
  _multiplier : Q;
  _rr : list Q;
  _rf : list Q;
  _br : list Q;
  _lock_in : Q;
  _min_risk_req : Q;
  _min_capital_req : Q;
  _freq : Q;
  _portfolio : option (list Q);
  _ref_capital : option (list Q);
  _margin_trigger : option (list Q);
  _discount : option (list Q);
  _floor : option (list Q);
  _compounded_period : Q }.

(** A division of C doubles compiled without [cdivision]: a zero divisor
    raises. *)
Definition cdiv (x y : Q) : result Q :=
  if Qeq_bool y 0 then Raise ZeroDivisionError else Ok (x / y).

(** [TIPP.__init__]; [freq] defaults to 252 in the source.  The length
    validation of lines 48-54 is commented out, so nothing compares the
    series. *)
Definition __init__ (capital multiplier : Q) (rr rf br : list Q)
    (lock_in min_risk_req min_capital_req freq : Q) : result TIPP :=
  compounded_period ← cdiv (of_size (length rr)) freq;
  mret {| _capital := capital;
          _multiplier := multiplier;
          _rr := rr;
          _rf := rf;
          _br := br;
          _lock_in := lock_in;
          _min_risk_req := min_risk_req;
          _min_capital_req := min_capital_req;
          _freq := freq;
          _portfolio := None;
          _ref_capital := None;
          _margin_trigger := None;
          _discount := None;
          _floor := None;
          _compounded_period := compounded_period |}.

(** The properties. *)
Definition portfolio (self : TIPP) := _portfolio self.
Definition ref_capital (self : TIPP) := _ref_capital self.
Definition margin_trigger (self : TIPP) := _margin_trigger self.
Definition floor (self : TIPP) := _floor self.
Definition compounded_period (self : TIPP) := _compounded_period self.
Definition discount (self : TIPP) := _discount self.

(** Assignments to the attributes that [run] writes. *)
Definition set_portfolio (self : TIPP) (a : option (list Q)) : TIPP :=
  mkTIPP (_capital self) (_multiplier self) (_rr self) (_rf self) (_br self) (_lock_in self)
         (_min_risk_req self) (_min_capital_req self) (_freq self)
         a (_ref_capital self) (_margin_trigger self) (_discount self) (_floor self)
         (_compounded_period self).
Definition set_ref_capital (self : TIPP) (a : option (list Q)) : TIPP :=
  mkTIPP (_capital self) (_multiplier self) (_rr self) (_rf self) (_br self) (_lock_in self)
         (_min_risk_req self) (_min_capital_req self) (_freq self)
         (_portfolio self) a (_margin_trigger self) (_discount self) (_floor self)
         (_compounded_period self).
Definition set_margin_trigger (self : TIPP) (a : option (list Q)) : TIPP :=
  mkTIPP (_capital self) (_multiplier self) (_rr self) (_rf self) (_br self) (_lock_in self)
         (_min_risk_req self) (_min_capital_req self) (_freq self)
         (_portfolio self) (_ref_capital self) a (_discount self) (_floor self)
         (_compounded_period self).
Definition set_discount (self : TIPP) (a : option (list Q)) : TIPP :=
  mkTIPP (_capital self) (_multiplier self) (_rr self) (_rf self) (_br self) (_lock_in self)
         (_min_risk_req self) (_min_capital_req self) (_freq self)
         (_portfolio self) (_ref_capital self) (_margin_trigger self) a (_floor self)
         (_compounded_period self).
Definition set_floor (self : TIPP) (a : option (list Q)) : TIPP :=
  mkTIPP (_capital self) (_multiplier self) (_rr self) (_rf self) (_br self) (_lock_in self)
         (_min_risk_req self) (_min_capital_req self) (_freq self)
         (_portfolio self) (_ref_capital self) (_margin_trigger self) (_discount self) a
         (_compounded_period self).
Definition set_compounded_period (self : TIPP) (c : Q) : TIPP :=
  mkTIPP (_capital self) (_multiplier self) (_rr self) (_rf self) (_br self) (_lock_in self)
         (_min_risk_req self) (_min_capital_req self) (_freq self)
         (_portfolio self) (_ref_capital self) (_margin_trigger self) (_discount self)
         (_floor self) c.

(** The [cdef] helpers (lines 143-166).  They are compiled by Cython 3
    (pyproject.toml), where an exception raised inside propagates to
    [run]. *)
Definition _should_update_lock_in (self : TIPP) (n : nat) : result bool :=
  p ← getitem (_portfolio self) n;
  r ← getitem (_ref_capital self) n;
  mret (Qgeb p ((1 + _lock_in self) * r)).

Definition _should_update_floor (self : TIPP) (floor_cap : Q) (n : nat) : result bool :=
  fl ← getitem (_floor self) n;
  mret (Qgtb floor_cap fl).

Definition _should_inject_liquidity (self : TIPP) (n : nat) : result bool :=
  p ← getitem (_portfolio self) n;
  r ← getitem (_ref_capital self) n;
  mret (Qltb p (r * _min_capital_req self)).

Definition _get_risk_allocation_mix (self : TIPP) (magnet : Q) (n : nat) : result Q :=
  p ← getitem (_portfolio self) n;
  p' ← getitem (_portfolio self) n;
  mret (fmax (fmin (_multiplier self * magnet) p) (_min_risk_req self * p')).

Definition _update_portfolio_mix (self : TIPP) (risk_alloc risk_free_alloc : Q) (n : nat)
    : result Q :=
  rr_n ← getitem (Some (_rr self)) n;
  rf_n ← getitem (Some (_rf self)) n;
  mret (risk_alloc * (1 + rr_n) + risk_free_alloc * (1 + rf_n)).

Section Run.
Variable pow : Q -> Q -> Q.

(** Lines 108-112: the five arrays are allocated anew from the current value
    of [_compounded_period]. *)
Definition run_init (self : TIPP) : TIPP :=
  let n := length (_rr self) in
  let discount :=
    (fun rf_j => pow (1 + rf_j * _freq self / 252) (_compounded_period self)) <$> _rf self in
  let self := set_discount self (Some discount) in
  let self := set_margin_trigger self (Some (replicate n 0)) in
  let self := set_ref_capital self (Some ((fun x => x * _capital self) <$> replicate n 1)) in
  let self := set_portfolio self (Some ((fun x => x * _capital self) <$> replicate n 1)) in
  set_floor self
    (Some ((fun d => _capital self * _min_capital_req self / d) <$> discount)).

(** Lines 115-118. *)
Definition update_ref_capital (i : nat) (self : TIPP) : result TIPP :=
  b ← _should_update_lock_in self (i - 1);
  if b : bool then
    p ← getitem (_portfolio self) (i - 1);
    a ← setitem (_ref_capital self) i p;
    mret (set_ref_capital self a)
  else
    r ← getitem (_ref_capital self) (i - 1);
    a ← setitem (_ref_capital self) i r;
    mret (set_ref_capital self a).

(** Lines 120-125. *)
Definition update_floor (i : nat) (self : TIPP) : result TIPP :=
  p ← getitem (_portfolio self) (i - 1);
  d ← getitem (_discount self) (i - 1);
  let floor_cap := p * d in
  b ← _should_update_floor self floor_cap (i - 1);
  if b : bool then
    a ← setitem (_floor self) i floor_cap;
    mret (set_floor self a)
  else
    fl ← getitem (_floor self) (i - 1);
    a ← setitem (_floor self) i fl;
    mret (set_floor self a).

(** Lines 127-133. *)
Definition inject_liquidity (i : nat) (self : TIPP) : result TIPP :=
  b ← _should_inject_liquidity self (i - 1);
  if b : bool then
    r ← getitem (_ref_capital self) (i - 1);
    p ← getitem (_portfolio self) (i - 1);
    let capital_to_inject := r * _min_capital_req self - p in
    r' ← getitem (_ref_capital self) (i - 1);
    a ← setitem (_ref_capital self) i (r' - capital_to_inject);
    let self := set_ref_capital self a in
    p' ← getitem (_portfolio self) (i - 1);
    a ← setitem (_portfolio self) (i - 1) (p' + capital_to_inject);
    let self := set_portfolio self a in
    a ← setitem (_margin_trigger self) i capital_to_inject;
    mret (set_margin_trigger self a)
  else mret self.

(** Lines 135-136: the local [risk_allocation], from the object as the
    injection step leaves it. *)
Definition risk_allocation (i : nat) (self : TIPP) : result Q :=
  p ← getitem (_portfolio self) (i - 1);
  fl ← getitem (_floor self) (i - 1);
  let magnet := p - fl in
  _get_risk_allocation_mix self magnet (i - 1).

(** Lines 135-141. *)
Definition update_portfolio (i : nat) (self : TIPP) : result TIPP :=
  risk_allocation ← risk_allocation i self;
  p ← getitem (_portfolio self) (i - 1);
  let risk_free_allocation := p - risk_allocation in
  v ← _update_portfolio_mix self risk_allocation risk_free_allocation i;
  a ← setitem (_portfolio self) i v;
  let self := set_portfolio self a in
  q ← cdiv 1 (_freq self);
  mret (set_compounded_period self (_compounded_period self - q)).

(** The object on which iteration [i] computes its allocation. *)
Definition before_allocation (i : nat) (self : TIPP) : result TIPP :=
  self ← update_ref_capital i self;
  self ← update_floor i self;
  inject_liquidity i self.

(** One iteration of [for i in range(1, self._portfolio.size)]. *)
Definition loop_body (i : nat) (self : TIPP) : result TIPP :=
  self ← before_allocation i self;
  update_portfolio i self.

(** The object after the first [k] iterations. *)
Definition run_loop (self : TIPP) (k : nat) : result TIPP :=
  for_in loop_body (seq 1 k) (run_init self).

(** [TIPP.run]. *)
Definition run (self : TIPP) : result TIPP :=
  run_loop self (length (_rr self) - 1).

End Run.

(** The objects on which [run] returns: the constructor rejects a zero
    [freq], and the caller supplies series of one length. *)
Definition wf (self : TIPP) : Prop :=
  length (_rf self) = length (_rr self) /\ ~ _freq self == 0.

End Vectorized.

(** * The recurrence shared by the two files

    Both loops perform the same four updates on the four series; they differ
    in the discount factor that iteration [i] multiplies [portfolio[i-1]]
    with.  [Core.step d i] is one iteration with that factor [d] given. *)
Module Core.

Record series := mkSeries {
  sP : list Q;   (* portfolio *)
  sR : list Q;   (* ref_capital *)
  sM : list Q;   (* margin_trigger *)
  sF : list Q }. (* floor *)

Section Step.
Variables (lock_in min_capital_req multiplier min_risk_req : Q) (rr rf : list Q).

Definition ratchet (i : nat) (s : series) : series :=
  mkSeries (sP s)
    (<[i := if Qgeb (rd (sP s) (i - 1)) ((1 + lock_in) * rd (sR s) (i - 1))
            then rd (sP s) (i - 1) else rd (sR s) (i - 1)]> (sR s))
    (sM s) (sF s).

Definition raise_floor (d : Q) (i : nat) (s : series) : series :=
  mkSeries (sP s) (sR s) (sM s)
    (<[i := if Qgtb (rd (sP s) (i - 1) * d) (rd (sF s) (i - 1))
            then rd (sP s) (i - 1) * d else rd (sF s) (i - 1)]> (sF s)).

Definition breached (i : nat) (s : series) : bool :=
  Qltb (rd (sP s) (i - 1)) (rd (sR s) (i - 1) * min_capital_req).

Definition shortfall (i : nat) (s : series) : Q :=
  rd (sR s) (i - 1) * min_capital_req - rd (sP s) (i - 1).

Definition inject (i : nat) (s : series) : series :=
  if breached i s
  then mkSeries (<[(i - 1)%nat := rd (sP s) (i - 1) + shortfall i s]> (sP s))
                (<[i := rd (sR s) (i - 1) - shortfall i s]> (sR s))
                (<[i := shortfall i s]> (sM s))
                (sF s)
  else s.

Definition alloc (i : nat) (s : series) : Q :=
  fmax (fmin (multiplier * (rd (sP s) (i - 1) - rd (sF s) (i - 1))) (rd (sP s) (i - 1)))
       (min_risk_req * rd (sP s) (i - 1)).

Definition settle (i : nat) (s : series) : series :=
  mkSeries (<[i := alloc i s * (1 + rd rr i)
                   + (rd (sP s) (i - 1) - alloc i s) * (1 + rd rf i)]> (sP s))
           (sR s) (sM s) (sF s).

Definition prepare (d : Q) (i : nat) (s : series) : series :=
  inject i (raise_floor d i (ratchet i s)).

Definition step (d : Q) (i : nat) (s : series) : series :=
  settle i (prepare d i s).

(** [k] iterations, iteration [i] using the factor [d i]. *)
Definition iter (d : nat -> Q) (k : nat) (s0 : series) : series :=
  fold_left (fun s i => step (d i) i s) (seq 1 k) s0.

(** All four series have length [n]. *)
Definition sized (n : nat) (s : series) : Prop :=
  length (sP s) = n /\ length (sR s) = n /\ length (sM s) = n /\ length (sF s) = n.

End Step.
End Core.

(** * The two loops as instances of the recurrence *)

(** The running exponent after [k] decrements of [1 / freq]. *)
Definition exponent_after (freq c0 : Q) (k : nat) : Q :=
  Nat.iter k (fun c => c - 1 / freq) c0.

(** part_000: the four views of a frame, and the factor that iteration [i]
    finds in [discount_factor]. *)
Definition inc_views (f : Incremental.frame) : Core.series :=
  Core.mkSeries (Incremental.portfolio_view f) (Incremental.ref_capital_view f)
                (Incremental.margin_trigger_view f) (Incremental.floor_view f).

Definition inc_exponent (self : Incremental.TIPP) (k : nat) : Q :=
  exponent_after (Incremental._freq self)
    (of_size (length (Incremental._rr self)) / Incremental._freq self) k.

Definition inc_discount (pow : Q -> Q -> Q) (self : Incremental.TIPP) (i : nat) : Q :=
  pow (1 + rd (Incremental._rf self) (i - 1) * Incremental._freq self / 252)
      (inc_exponent self (i - 1)).

Definition inc_iter (pow : Q -> Q -> Q) (self : Incremental.TIPP) (k : nat) : Core.series :=
  Core.iter (Incremental._lock_in self) (Incremental._min_capital_req self)
            (Incremental._multiplier self) (Incremental._min_risk_req self)
            (Incremental._rr self) (Incremental._rf self)
            (inc_discount pow self) k (inc_views (Incremental.run_init pow self)).

(** tipp_.pyx: an object whose five arrays are set, the array that [run]
    stores in [_discount], and the factor that iteration [i] reads from it. *)
Definition vec_pack (t : Vectorized.TIPP) (s : Core.series) (D : list Q) (c : Q)
    : Vectorized.TIPP :=
  Vectorized.mkTIPP (Vectorized._capital t) (Vectorized._multiplier t) (Vectorized._rr t)
    (Vectorized._rf t) (Vectorized._br t) (Vectorized._lock_in t)
    (Vectorized._min_risk_req t) (Vectorized._min_capital_req t) (Vectorized._freq t)
    (Some (Core.sP s)) (Some (Core.sR s)) (Some (Core.sM s)) (Some D) (Some (Core.sF s)) c.

Definition vec_discounts (pow : Q -> Q -> Q) (self : Vectorized.TIPP) : list Q :=
  (fun rf_j => pow (1 + rf_j * Vectorized._freq self / 252)
                   (Vectorized._compounded_period self)) <$> Vectorized._rf self.

Definition vec_discount (pow : Q -> Q -> Q) (self : Vectorized.TIPP) (i : nat) : Q :=
  rd (vec_discounts pow self) (i - 1).

Definition vec_init (pow : Q -> Q -> Q) (self : Vectorized.TIPP) : Core.series :=
  let n := length (Vectorized._rr self) in
  Core.mkSeries
    ((fun x => x * Vectorized._capital self) <$> replicate n 1)
    ((fun x => x * Vectorized._capital self) <$> replicate n 1)
    (replicate n 0)
    ((fun d => Vectorized._capital self * Vectorized._min_capital_req self / d)
       <$> vec_discounts pow self).

Definition vec_iter (pow : Q -> Q -> Q) (self : Vectorized.TIPP) (k : nat) : Core.series :=
  Core.iter (Vectorized._lock_in self) (Vectorized._min_capital_req self)
            (Vectorized._multiplier self) (Vectorized._min_risk_req self)
            (Vectorized._rr self) (Vectorized._rf self)
            (vec_discount pow self) k (vec_init pow self).

(** * Observing and changing an object *)

(** The object with another benchmark series. *)
Definition vec_with_br (b : list Q) (t : Vectorized.TIPP) : Vectorized.TIPP :=
  Vectorized.mkTIPP (Vectorized._capital t) (Vectorized._multiplier t) (Vectorized._rr t)
    (Vectorized._rf t) b (Vectorized._lock_in t)
    (Vectorized._min_risk_req t) (Vectorized._min_capital_req t) (Vectorized._freq t)
    (Vectorized._portfolio t) (Vectorized._ref_capital t) (Vectorized._margin_trigger t)
    (Vectorized._discount t) (Vectorized._floor t) (Vectorized._compounded_period t).

Definition inc_with_br (b : list Q) (t : Incremental.TIPP) : Incremental.TIPP :=
  Incremental.mkTIPP (Incremental._capital t) (Incremental._multiplier t)
    (Incremental._rr t) (Incremental._rf t) b (Incremental._lock_in t)
    (Incremental._min_risk_req t) (Incremental._min_capital_req t) (Incremental._freq t)
    (Incremental._portfolio t) (Incremental._ref_capital t) (Incremental._margin_trigger t)
    (Incremental._floor t) (Incremental._compounded_period t).

Definition result_map {A B : Type} (f : A -> B) (r : result A) : result B :=
  match r with Ok a => Ok (f a) | Raise e => Raise e end.


(** The object with its five arrays unset. *)
Definition vec_unset (t : Vectorized.TIPP) : Vectorized.TIPP :=
  Vectorized.mkTIPP (Vectorized._capital t) (Vectorized._multiplier t) (Vectorized._rr t)
    (Vectorized._rf t) (Vectorized._br t) (Vectorized._lock_in t)
    (Vectorized._min_risk_req t) (Vectorized._min_capital_req t) (Vectorized._freq t)
    None None None None None (Vectorized._compounded_period t).

(** What the accessors return. *)
Definition inc_outputs (t : Incremental.TIPP) :=
  (Incremental.portfolio t, Incremental.ref_capital t, Incremental.floor t,
   Incremental.margin_trigger t, Incremental.compounded_period t).
Definition vec_outputs (t : Vectorized.TIPP) :=
  (Vectorized.portfolio t, Vectorized.ref_capital t, Vectorized.floor t,
   Vectorized.margin_trigger t, Vectorized.compounded_period t).

(** * Concrete objects

    Objects as the constructors return them, on which the code is evaluated
    below.  All inputs are small dyadic numbers and [freq = 1], so that
    binary64 computes the same values exactly. *)

(** Two returns of -1000% on the risky asset. *)
Definition inc_crash : Incremental.TIPP :=
  Incremental.mkTIPP 100 1 [0; -10; -10; 0] [0; 0; 0; 0] [0; 0; 0; 0] (1 # 8) (1 # 4) (1 # 2) 1
                     None None None None (of_size 4 / 1).

Definition vec_crash : Vectorized.TIPP :=
  Vectorized.mkTIPP 100 1 [0; -10; -10; 0] [0; 0; 0; 0] [0; 0; 0; 0] (1 # 8) (1 # 4) (1 # 2) 1
                    None None None None None (of_size 4 / 1).

(** One period, with [1 + rf[0] * freq / 252 = 2]. *)
Definition vec_single : Vectorized.TIPP :=
  Vectorized.mkTIPP 100 1 [0] [252] [0] (1 # 8) (1 # 4) (1 # 2) 1
                    None None None None None (of_size 1 / 1).

(** * Vocabulary for further properties of the outputs *)

(** The value that an iteration stores in [portfolio[i]]: the allocation mix
    of lines 155-160 (part_000: 155-158) applied to [p = portfolio[i-1]] and
    [fl = floor[i-1]], then the update of lines 162-166 (part_000: 159-162)
    with the returns [rr[i]] and [rf[i]]. *)
Definition settled (multiplier min_risk_req p fl rr_i rf_i : Q) : Q :=
  let risk_allocation := fmax (fmin (multiplier * (p - fl)) p) (min_risk_req * p) in
  let risk_free_allocation := p - risk_allocation in
  risk_allocation * (1 + rr_i) + risk_free_allocation * (1 + rf_i).

(** The series of tipp_.pyx when [rf] has its own length [m]: [floor] is
    allocated from the discount array, hence from [rf]. *)
Definition sized2 (n m : nat) (s : Core.series) : Prop :=
  length (Core.sP s) = n /\ length (Core.sR s) = n /\ length (Core.sM s) = n
  /\ length (Core.sF s) = m.


(** The configuration and the input series of an object. *)
Definition inc_config (t : Incremental.TIPP) :=
  (Incremental._capital t, Incremental._multiplier t, Incremental._rr t,
   Incremental._rf t, Incremental._br t, Incremental._lock_in t,
   Incremental._min_risk_req t, Incremental._min_capital_req t, Incremental._freq t).

Definition vec_config (t : Vectorized.TIPP) :=
  (Vectorized._capital t, Vectorized._multiplier t, Vectorized._rr t,
   Vectorized._rf t, Vectorized._br t, Vectorized._lock_in t,
   Vectorized._min_risk_req t, Vectorized._min_capital_req t, Vectorized._freq t).



(** [rf] one element shorter, and one element longer, than [rr]. *)
Definition vec_short : Vectorized.TIPP :=
  Vectorized.mkTIPP 100 1 [0; 0; 0] [0; 0] [0; 0; 0] (1 # 8) (1 # 4) (1 # 2) 1
                    None None None None None (of_size 3 / 1).

Definition vec_long : Vectorized.TIPP :=
  Vectorized.mkTIPP 100 1 [0; 0] [0; 0; 0] [0; 0] (1 # 8) (1 # 4) (1 # 2) 1
                    None None None None None (of_size 2 / 1).

(** One period. *)
Definition inc_single : Incremental.TIPP :=
  Incremental.mkTIPP 100 1 [0] [252] [0] (1 # 8) (1 # 4) (1 # 2) 1
                     None None None None (of_size 1 / 1).



(** * The two files in binary64

    The same code once more, with every number a binary64 float and every
    operation the IEEE 754 operation of the kernel's primitive floats
    (rounding to nearest even, infinities, NaN).  It is executable, and is
    used to run the code on concrete inputs where rounding or NaN decides
    what the arrays hold. *)
Module B64.

Local Open Scope float_scope.

(** [x >= y] and [x > y] of C and Python on doubles: false when either side
    is NaN. *)
Definition geb (x y : float) : bool := (y <=? x).
Definition gtb (x y : float) : bool := (y <? x).

(** [fmax] and [fmin] of libc.math: a NaN argument yields the other
    argument. *)
Definition fmax (x y : float) : float :=
  if is_nan x then y else if is_nan y then x else if (x <? y) then y else x.
Definition fmin (x y : float) : float :=
  if is_nan x then y else if is_nan y then x else if (y <? x) then y else x.

(** An array length converted to a double (exact below 2^53). *)
Definition of_size (n : nat) : float := of_uint63 (Uint63.of_Z (Z.of_nat n)).

(** [pow] of libc, on the arguments where its value is fixed by the C
    standard (Annex F) or is an exact product:
    - [pow(1, y) = 1] for every [y], and [pow(x, 0) = 1];
    - for [y] a positive integer up to 64, the product of [y] factors [x],
      which is the power whenever every partial product is exact;
    - for a negative [x] and a [y] that is not an integer, NaN.
    It is used only to run the code on concrete inputs that keep to these
    cases ([rf = 0], where every base is 1, and the base [-1] with the
    exponent [1.5]).  Elsewhere (a negative exponent, a fractional exponent
    of a positive base other than 1) it yields NaN and is not the C
    function. *)
Fixpoint pow_loop (fuel : nat) (x y acc : float) : float :=
  match fuel with
  | O => nan
  | S fuel' =>
      if (y =? 0) then acc
      else if (y <? 1) then nan
      else pow_loop fuel' x (y - 1) (acc * x)
  end.

Definition pow_b64 (x y : float) : float :=
  if (x =? 1) then 1 else pow_loop 65 x y 1.

(** Unchecked read of a typed memoryview, as [rd] above. *)
Definition rd (a : list float) (i : nat) : float := default 0 (a !! i).

(** Python-level indexing of an attribute, as [getitem] and [setitem]
    above. *)
Definition getitem (a : option (list float)) (i : nat) : result float :=
  match a with
  | None => Raise TypeError
  | Some l => match l !! i with Some x => Ok x | None => Raise IndexError end
  end.

Definition setitem (a : option (list float)) (i : nat) (x : float)
    : result (option (list float)) :=
  match a with
  | None => Raise TypeError
  | Some l => if decide (i < length l)%nat then Ok (Some (<[i:=x]> l)) else Raise IndexError
  end.

Definition item (a : option (list float)) (i : nat) : option float :=
  match a with Some l => l !! i | None => None end.

(** ** src/unnamed/part_000 *)
Module Incremental.

Record TIPP := mkTIPP {
  _capital : float;
  _multiplier : float;
  _rr : list float;
  _rf : list float;
  _br : list float;
  _lock_in : float;
  _min_risk_req : float;
  _min_capital_req : float;
  _freq : float;
  _portfolio : option (list float);
  _ref_capital : option (list float);
  _margin_trigger : option (list float);
  _floor : option (list float);
  _compounded_period : float }.

(** [TIPP.__init__] (lines 37-72); the division is C's
    ([cdivision=True]). *)
Definition __init__ (capital multiplier : float) (rr rf br : list float)
    (lock_in min_risk_req min_capital_req freq : float) : result TIPP :=
  let rr_len := length rr in
  let rf_len := length rf in
  let br_len := length br in
  if negb (rr_len =? rf_len)%nat || negb (rr_len =? br_len)%nat
  then Raise (ValueError "All rate parameters must have the same length")
  else Ok {| _capital := capital;
             _multiplier := multiplier;
             _rr := rr;
             _rf := rf;
             _br := br;
             _lock_in := lock_in;
             _min_risk_req := min_risk_req;
             _min_capital_req := min_capital_req;
             _freq := freq;
             _portfolio := None;
             _ref_capital := None;
             _margin_trigger := None;
             _floor := None;
             _compounded_period := of_size (length rr) / freq |}.

Definition portfolio (self : TIPP) := _portfolio self.
Definition ref_capital (self : TIPP) := _ref_capital self.
Definition margin_trigger (self : TIPP) := _margin_trigger self.
Definition floor (self : TIPP) := _floor self.
Definition compounded_period (self : TIPP) := _compounded_period self.

Record frame := mkFrame {
  portfolio_view : list float;
  ref_capital_view : list float;
  margin_trigger_view : list float;
  floor_view : list float;
  local_compounded_period : float;
  discount_factor : float }.

Section Run.
Variable pow : float -> float -> float.
Variable self : TIPP.

(** Lines 115-130. *)
Definition run_init : frame :=
  let n := length (_rr self) in
  let compounded_period := of_size n / _freq self in
  {| portfolio_view := (fun x => x * _capital self) <$> replicate n 1;
     ref_capital_view := (fun x => x * _capital self) <$> replicate n 1;
     margin_trigger_view := replicate n 0;
     floor_view := (fun x => x * (_capital self * _min_capital_req self)) <$> replicate n 1;
     local_compounded_period := compounded_period;
     discount_factor := pow (1 + rd (_rf self) 0 * _freq self / 252) compounded_period |}.

(** Lines 133-137. *)
Definition update_ref_capital (i : nat) (f : frame) : frame :=
  let ref_capital_view' :=
    if geb (rd (portfolio_view f) (i - 1))
           ((1 + _lock_in self) * rd (ref_capital_view f) (i - 1))
    then <[i := rd (portfolio_view f) (i - 1)]> (ref_capital_view f)
    else <[i := rd (ref_capital_view f) (i - 1)]> (ref_capital_view f) in
  mkFrame (portfolio_view f) ref_capital_view' (margin_trigger_view f) (floor_view f)
          (local_compounded_period f) (discount_factor f).

(** Lines 139-144. *)
Definition update_floor (i : nat) (f : frame) : frame :=
  let floor_cap := rd (portfolio_view f) (i - 1) * discount_factor f in
  let floor_view' :=
    if gtb floor_cap (rd (floor_view f) (i - 1))
    then <[i := floor_cap]> (floor_view f)
    else <[i := rd (floor_view f) (i - 1)]> (floor_view f) in
  mkFrame (portfolio_view f) (ref_capital_view f) (margin_trigger_view f) floor_view'
          (local_compounded_period f) (discount_factor f).

(** Lines 146-151. *)
Definition inject_liquidity (i : nat) (f : frame) : frame :=
  if (rd (portfolio_view f) (i - 1)
      <? rd (ref_capital_view f) (i - 1) * _min_capital_req self)
  then
    let capital_to_inject :=
      rd (ref_capital_view f) (i - 1) * _min_capital_req self - rd (portfolio_view f) (i - 1) in
    let ref_capital_view' :=
      <[i := rd (ref_capital_view f) (i - 1) - capital_to_inject]> (ref_capital_view f) in
    let portfolio_view' :=
      <[(i - 1)%nat := rd (portfolio_view f) (i - 1) + capital_to_inject]> (portfolio_view f) in
    let margin_trigger_view' := <[i := capital_to_inject]> (margin_trigger_view f) in
    mkFrame portfolio_view' ref_capital_view' margin_trigger_view' (floor_view f)
            (local_compounded_period f) (discount_factor f)
  else f.

(** Lines 154-158. *)
Definition risk_allocation (i : nat) (f : frame) : float :=
  let magnet := rd (portfolio_view f) (i - 1) - rd (floor_view f) (i - 1) in
  fmax (fmin (_multiplier self * magnet) (rd (portfolio_view f) (i - 1)))
       (_min_risk_req self * rd (portfolio_view f) (i - 1)).

(** Lines 159-165. *)
Definition update_portfolio (i : nat) (f : frame) : frame :=
  let risk_allocation := risk_allocation i f in
  let risk_free_allocation := rd (portfolio_view f) (i - 1) - risk_allocation in
  let portfolio_view' :=
    <[i := risk_allocation * (1 + rd (_rr self) i)
           + risk_free_allocation * (1 + rd (_rf self) i)]> (portfolio_view f) in
  let compounded_period := local_compounded_period f - 1 / _freq self in
  mkFrame portfolio_view' (ref_capital_view f) (margin_trigger_view f) (floor_view f)
          compounded_period
          (pow (1 + rd (_rf self) i * _freq self / 252) compounded_period).

Definition before_allocation (i : nat) (f : frame) : frame :=
  inject_liquidity i (update_floor i (update_ref_capital i f)).

Definition loop_body (i : nat) (f : frame) : frame :=
  update_portfolio i (before_allocation i f).

Definition run_loop (k : nat) : frame :=
  fold_left (fun f i => loop_body i f) (seq 1 k) run_init.

(** [TIPP.run] (lines 99-170). *)
Definition run : TIPP :=
  let n := length (_rr self) in
  let f := run_loop (n - 1) in
  {| _capital := _capital self;
     _multiplier := _multiplier self;
     _rr := _rr self;
     _rf := _rf self;
     _br := _br self;
     _lock_in := _lock_in self;
     _min_risk_req := _min_risk_req self;
     _min_capital_req := _min_capital_req self;
     _freq := _freq self;
     _portfolio := Some (portfolio_view f);
     _ref_capital := Some (ref_capital_view f);
     _margin_trigger := Some (margin_trigger_view f);
     _floor := Some (floor_view f);
     _compounded_period := _compounded_period self |}.

End Run.
End Incremental.

(** ** src/pyinsurance/portfolio/tipp_.pyx *)
Module Vectorized.

Record TIPP := mkTIPP {
  _capital : float;
  _multiplier : float;
  _rr : list float;
  _rf : list float;
  _br : list float;
  _lock_in : float;
  _min_risk_req : float;
  _min_capital_req : float;
  _freq : float;
  _portfolio : option (list float);
  _ref_capital : option (list float);
  _margin_trigger : option (list float);
  _discount : option (list float);
  _floor : option (list float);
  _compounded_period : float }.

(** A division of C doubles compiled without [cdivision]: a zero divisor
    (of either sign) raises. *)
Definition cdiv (x y : float) : result float :=
  if (y =? 0) then Raise ZeroDivisionError else Ok (x / y).

(** [TIPP.__init__] (lines 34-70). *)
Definition __init__ (capital multiplier : float) (rr rf br : list float)
    (lock_in min_risk_req min_capital_req freq : float) : result TIPP :=
  compounded_period ← cdiv (of_size (length rr)) freq;
  mret {| _capital := capital;
          _multiplier := multiplier;
          _rr := rr;
          _rf := rf;
          _br := br;
          _lock_in := lock_in;
          _min_risk_req := min_risk_req;
          _min_capital_req := min_capital_req;
          _freq := freq;
          _portfolio := None;
          _ref_capital := None;
          _margin_trigger := None;
          _discount := None;
          _floor := None;
          _compounded_period := compounded_period |}.

Definition portfolio (self : TIPP) := _portfolio self.
Definition ref_capital (self : TIPP) := _ref_capital self.
Definition margin_trigger (self : TIPP) := _margin_trigger self.
Definition floor (self : TIPP) := _floor self.
Definition compounded_period (self : TIPP) := _compounded_period self.
Definition discount (self : TIPP) := _discount self.

Definition set_portfolio (self : TIPP) (a : option (list float)) : TIPP :=
  mkTIPP (_capital self) (_multiplier self) (_rr self) (_rf self) (_br self) (_lock_in self)
         (_min_risk_req self) (_min_capital_req self) (_freq self)
         a (_ref_capital self) (_margin_trigger self) (_discount self) (_floor self)
         (_compounded_period self).
Definition set_ref_capital (self : TIPP) (a : option (list float)) : TIPP :=
  mkTIPP (_capital self) (_multiplier self) (_rr self) (_rf self) (_br self) (_lock_in self)
         (_min_risk_req self) (_min_capital_req self) (_freq self)
         (_portfolio self) a (_margin_trigger self) (_discount self) (_floor self)
         (_compounded_period self).
Definition set_margin_trigger (self : TIPP) (a : option (list float)) : TIPP :=
  mkTIPP (_capital self) (_multiplier self) (_rr self) (_rf self) (_br self) (_lock_in self)
         (_min_risk_req self) (_min_capital_req self) (_freq self)
         (_portfolio self) (_ref_capital self) a (_discount self) (_floor self)
         (_compounded_period self).
Definition set_discount (self : TIPP) (a : option (list float)) : TIPP :=
  mkTIPP (_capital self) (_multiplier self) (_rr self) (_rf self) (_br self) (_lock_in self)
         (_min_risk_req self) (_min_capital_req self) (_freq self)
         (_portfolio self) (_ref_capital self) (_margin_trigger self) a (_floor self)
         (_compounded_period self).
Definition set_floor (self : TIPP) (a : option (list float)) : TIPP :=
  mkTIPP (_capital self) (_multiplier self) (_rr self) (_rf self) (_br self) (_lock_in self)
         (_min_risk_req self) (_min_capital_req self) (_freq self)
         (_portfolio self) (_ref_capital self) (_margin_trigger self) (_discount self) a
         (_compounded_period self).
Definition set_compounded_period (self : TIPP) (c : float) : TIPP :=
  mkTIPP (_capital self) (_multiplier self) (_rr self) (_rf self) (_br self) (_lock_in self)
         (_min_risk_req self) (_min_capital_req self) (_freq self)
         (_portfolio self) (_ref_capital self) (_margin_trigger self) (_discount self)
         (_floor self) c.

(** The [cdef] helpers (lines 143-166). *)
Definition _should_update_lock_in (self : TIPP) (n : nat) : result bool :=
  p ← getitem (_portfolio self) n;
  r ← getitem (_ref_capital self) n;
  mret (geb p ((1 + _lock_in self) * r)).

Definition _should_update_floor (self : TIPP) (floor_cap : float) (n : nat) : result bool :=
  fl ← getitem (_floor self) n;
  mret (gtb floor_cap fl).

Definition _should_inject_liquidity (self : TIPP) (n : nat) : result bool :=
  p ← getitem (_portfolio self) n;
  r ← getitem (_ref_capital self) n;
  mret (p <? r * _min_capital_req self).

Definition _get_risk_allocation_mix (self : TIPP) (magnet : float) (n : nat) : result float :=
  p ← getitem (_portfolio self) n;
  p' ← getitem (_portfolio self) n;
  mret (fmax (fmin (_multiplier self * magnet) p) (_min_risk_req self * p')).

Definition _update_portfolio_mix (self : TIPP) (risk_alloc risk_free_alloc : float) (n : nat)
    : result float :=
  rr_n ← getitem (Some (_rr self)) n;
  rf_n ← getitem (Some (_rf self)) n;
  mret (risk_alloc * (1 + rr_n) + risk_free_alloc * (1 + rf_n)).

Section Run.
Variable pow : float -> float -> float.

(** Lines 108-112; NumPy's elementwise division yields an infinity or NaN
    for a zero or NaN discount and does not raise. *)
Definition run_init (self : TIPP) : TIPP :=
  let n := length (_rr self) in
  let discount :=
    (fun rf_j => pow (1 + rf_j * _freq self / 252) (_compounded_period self)) <$> _rf self in
  let self := set_discount self (Some discount) in
  let self := set_margin_trigger self (Some (replicate n 0)) in
  let self := set_ref_capital self (Some ((fun x => x * _capital self) <$> replicate n 1)) in
  let self := set_portfolio self (Some ((fun x => x * _capital self) <$> replicate n 1)) in
  set_floor self
    (Some ((fun d => _capital self * _min_capital_req self / d) <$> discount)).

(** Lines 115-118. *)
Definition update_ref_capital (i : nat) (self : TIPP) : result TIPP :=
  b ← _should_update_lock_in self (i - 1);
  if b : bool then
    p ← getitem (_portfolio self) (i - 1);
    a ← setitem (_ref_capital self) i p;
    mret (set_ref_capital self a)
  else
    r ← getitem (_ref_capital self) (i - 1);
    a ← setitem (_ref_capital self) i r;
    mret (set_ref_capital self a).

(** Lines 120-125. *)
Definition update_floor (i : nat) (self : TIPP) : result TIPP :=
  p ← getitem (_portfolio self) (i - 1);
  d ← getitem (_discount self) (i - 1);
  let floor_cap := p * d in
  b ← _should_update_floor self floor_cap (i - 1);
  if b : bool then
    a ← setitem (_floor self) i floor_cap;
    mret (set_floor self a)
  else
    fl ← getitem (_floor self) (i - 1);
    a ← setitem (_floor self) i fl;
    mret (set_floor self a).

(** Lines 127-133. *)
Definition inject_liquidity (i : nat) (self : TIPP) : result TIPP :=
  b ← _should_inject_liquidity self (i - 1);
  if b : bool then
    r ← getitem (_ref_capital self) (i - 1);
    p ← getitem (_portfolio self) (i - 1);
    let capital_to_inject := r * _min_capital_req self - p in
    r' ← getitem (_ref_capital self) (i - 1);
    a ← setitem (_ref_capital self) i (r' - capital_to_inject);
    let self := set_ref_capital self a in
    p' ← getitem (_portfolio self) (i - 1);
    a ← setitem (_portfolio self) (i - 1) (p' + capital_to_inject);
    let self := set_portfolio self a in
    a ← setitem (_margin_trigger self) i capital_to_inject;
    mret (set_margin_trigger self a)
  else mret self.

(** Lines 135-136. *)
Definition risk_allocation (i : nat) (self : TIPP) : result float :=
  p ← getitem (_portfolio self) (i - 1);
  fl ← getitem (_floor self) (i - 1);
  let magnet := p - fl in
  _get_risk_allocation_mix self magnet (i - 1).

(** Lines 135-141. *)
Definition update_portfolio (i : nat) (self : TIPP) : result TIPP :=
  risk_allocation ← risk_allocation i self;
  p ← getitem (_portfolio self) (i - 1);
  let risk_free_allocation := p - risk_allocation in
  v ← _update_portfolio_mix self risk_allocation risk_free_allocation i;
  a ← setitem (_portfolio self) i v;
  let self := set_portfolio self a in
  q ← cdiv 1 (_freq self);
  mret (set_compounded_period self (_compounded_period self - q)).

Definition before_allocation (i : nat) (self : TIPP) : result TIPP :=
  self ← update_ref_capital i self;
  self ← update_floor i self;
  inject_liquidity i self.

Definition loop_body (i : nat) (self : TIPP) : result TIPP :=
  self ← before_allocation i self;
  update_portfolio i self.

Definition run_loop (self : TIPP) (k : nat) : result TIPP :=
  for_in loop_body (seq 1 k) (run_init self).

(** [TIPP.run] (lines 102-141). *)
Definition run (self : TIPP) : result TIPP :=
  run_loop self (length (_rr self) - 1).

End Run.
End Vectorized.

(** ** Concrete objects *)

Local Set Warnings "-inexact-float".



(** Three periods of ten per year. *)
Definition vec_tenths : Vectorized.TIPP :=
  Vectorized.mkTIPP 100 1 [0; 0; 0] [0; 0; 0] [0; 0; 0] 0.125 0.25 0.5 10
                    None None None None None (of_size 3 / 10).


End B64.

(** * Facts about the arithmetic and the arrays *)

(** Evaluating the code on a concrete input, and telling two computed
    numbers apart. *)
Ltac run_code := vm_compute; reflexivity.
Ltac differ := vm_compute; intros E; discriminate E.

Lemma Qltb_lt (x y : Q) : Qltb x y = true <-> x < y.
Proof.
  unfold Qltb. rewrite negb_true_iff, <- not_true_iff_false, Qle_bool_iff.
  split; [apply Qnot_le_lt | apply Qlt_not_le].
Qed.

Lemma Qltb_ge (x y : Q) : Qltb x y = false <-> y <= x.
Proof. unfold Qltb. rewrite negb_false_iff. apply Qle_bool_iff. Qed.

Lemma Qgeb_le (x y : Q) : Qgeb x y = true <-> y <= x.
Proof. apply Qle_bool_iff. Qed.





Lemma rd_lookup (l : list Q) (i : nat) (x : Q) : l !! i = Some x -> rd l i = x.
Proof. unfold rd. now intros ->. Qed.

Lemma lookup_rd (l : list Q) (i : nat) : (i < length l)%nat -> l !! i = Some (rd l i).
Proof.
  intros H. destruct (lookup_lt_is_Some_2 l i H) as [x Hx].
  now rewrite (rd_lookup _ _ _ Hx).
Qed.

Lemma rd_insert_eq (l : list Q) (i : nat) (x : Q) :
  (i < length l)%nat -> rd (<[i:=x]> l) i = x.
Proof. intros H. apply rd_lookup. now apply list_lookup_insert_eq. Qed.

Lemma rd_insert_ne (l : list Q) (i j : nat) (x : Q) :
  i <> j -> rd (<[i:=x]> l) j = rd l j.
Proof. intros H. unfold rd. now rewrite list_lookup_insert_ne. Qed.

Lemma getitem_rd (l : list Q) (i : nat) :
  (i < length l)%nat -> getitem (Some l) i = Ok (rd l i).
Proof. intros H. unfold getitem. now rewrite (lookup_rd l i H). Qed.

Lemma setitem_ok (l : list Q) (i : nat) (x : Q) :
  (i < length l)%nat -> setitem (Some l) i x = Ok (Some (<[i:=x]> l)).
Proof. intros H. unfold setitem. now rewrite decide_True. Qed.

Lemma cdiv_ok (x y : Q) : ~ y == 0 -> Vectorized.cdiv x y = Ok (x / y).
Proof.
  intros H. unfold Vectorized.cdiv.
  destruct (Qeq_bool y 0) eqn:E; [| reflexivity].
  now apply Qeq_bool_iff in E.
Qed.

(** * Facts about the shared recurrence *)
Section CoreFacts.
Variables (lock_in mcr multiplier mrr : Q) (rr rf : list Q).

Import Core.

Local Abbreviation ratchet := (Core.ratchet lock_in).
Local Abbreviation breached := (Core.breached mcr).
Local Abbreviation shortfall := (Core.shortfall mcr).
Local Abbreviation inject := (Core.inject mcr).
Local Abbreviation alloc := (Core.alloc multiplier mrr).
Local Abbreviation settle := (Core.settle multiplier mrr rr rf).
Local Abbreviation prepare := (Core.prepare lock_in mcr).
Local Abbreviation step := (Core.step lock_in mcr multiplier mrr rr rf).
Local Abbreviation iter := (Core.iter lock_in mcr multiplier mrr rr rf).

(** The four updates of an iteration, with every read resolved to the state
    the iteration starts from. *)
Lemma prepare_eq (d : Q) (i : nat) (s : series) :
  (1 <= i)%nat ->
  prepare d i s =
  mkSeries
    (if breached i s then <[(i - 1)%nat := rd (sP s) (i - 1) + shortfall i s]> (sP s)
     else sP s)
    (<[i := if breached i s then rd (sR s) (i - 1) - shortfall i s
            else if Qgeb (rd (sP s) (i - 1)) ((1 + lock_in) * rd (sR s) (i - 1))
                 then rd (sP s) (i - 1) else rd (sR s) (i - 1)]> (sR s))
    (if breached i s then <[i := shortfall i s]> (sM s) else sM s)
    (<[i := if Qgtb (rd (sP s) (i - 1) * d) (rd (sF s) (i - 1))
            then rd (sP s) (i - 1) * d else rd (sF s) (i - 1)]> (sF s)).
Proof.
  intros Hi. unfold Core.prepare, Core.inject, Core.breached, Core.shortfall.
  cbn [Core.raise_floor Core.ratchet sP sR sM sF].
  rewrite !rd_insert_ne by lia.
  destruct (Qltb _ _); [| reflexivity].
  now rewrite list_insert_insert_eq.
Qed.

Lemma step_sized (n : nat) (d : Q) (i : nat) (s : series) :
  sized n s -> sized n (step d i s).
Proof.
  intros (HP & HR & HM & HF).
  unfold Core.step, Core.settle, Core.prepare, Core.inject, sized.
  destruct (Core.breached _ _ _); cbn [Core.raise_floor Core.ratchet sP sR sM sF];
    rewrite ?length_insert; auto.
Qed.

Lemma step_R_other (d : Q) (i j : nat) (s : series) :
  (1 <= i)%nat -> j <> i -> sR (step d i s) !! j = sR s !! j.
Proof.
  intros Hi Hj. unfold Core.step, Core.settle. cbn [sR].
  rewrite prepare_eq by exact Hi. cbn [sR].
  now rewrite list_lookup_insert_ne.
Qed.

Lemma step_R_at (d : Q) (i : nat) (s : series) :
  (1 <= i)%nat -> (i < length (sR s))%nat ->
  sR (step d i s) !! i =
  Some (if breached i s then rd (sR s) (i - 1) - shortfall i s
        else if Qgeb (rd (sP s) (i - 1)) ((1 + lock_in) * rd (sR s) (i - 1))
             then rd (sP s) (i - 1) else rd (sR s) (i - 1)).
Proof.
  intros Hi Hl. unfold Core.step, Core.settle. cbn [sR].
  rewrite prepare_eq by exact Hi. cbn [sR].
  now rewrite list_lookup_insert_eq.
Qed.

Lemma step_F_other (d : Q) (i j : nat) (s : series) :
  (1 <= i)%nat -> j <> i -> sF (step d i s) !! j = sF s !! j.
Proof.
  intros Hi Hj. unfold Core.step, Core.settle. cbn [sF].
  rewrite prepare_eq by exact Hi. cbn [sF].
  now rewrite list_lookup_insert_ne.
Qed.

Lemma step_F_at (d : Q) (i : nat) (s : series) :
  (1 <= i)%nat -> (i < length (sF s))%nat ->
  sF (step d i s) !! i =
  Some (if Qgtb (rd (sP s) (i - 1) * d) (rd (sF s) (i - 1))
        then rd (sP s) (i - 1) * d else rd (sF s) (i - 1)).
Proof.
  intros Hi Hl. unfold Core.step, Core.settle. cbn [sF].
  rewrite prepare_eq by exact Hi. cbn [sF].
  now rewrite list_lookup_insert_eq.
Qed.

Lemma step_M_other (d : Q) (i j : nat) (s : series) :
  (1 <= i)%nat -> j <> i -> sM (step d i s) !! j = sM s !! j.
Proof.
  intros Hi Hj. unfold Core.step, Core.settle. cbn [sM].
  rewrite prepare_eq by exact Hi. cbn [sM].
  destruct (breached i s); [| reflexivity].
  now rewrite list_lookup_insert_ne.
Qed.

Lemma step_M_at (d : Q) (i : nat) (s : series) :
  (1 <= i)%nat -> (i < length (sM s))%nat ->
  sM (step d i s) !! i = if breached i s then Some (shortfall i s) else sM s !! i.
Proof.
  intros Hi Hl. unfold Core.step, Core.settle. cbn [sM].
  rewrite prepare_eq by exact Hi. cbn [sM].
  destruct (breached i s); [| reflexivity].
  now rewrite list_lookup_insert_eq.
Qed.

Lemma step_P_other (d : Q) (i j : nat) (s : series) :
  (1 <= i)%nat -> j <> i -> j <> (i - 1)%nat -> sP (step d i s) !! j = sP s !! j.
Proof.
  intros Hi Hj Hj'. unfold Core.step, Core.settle. cbn [sP].
  rewrite list_lookup_insert_ne by congruence.
  rewrite prepare_eq by exact Hi. cbn [sP].
  destruct (breached i s); [| reflexivity].
  now rewrite list_lookup_insert_ne.
Qed.

Lemma step_P_prev (d : Q) (i : nat) (s : series) :
  (1 <= i)%nat -> (i - 1 < length (sP s))%nat ->
  sP (step d i s) !! (i - 1)%nat =
  Some (if breached i s then rd (sP s) (i - 1) + shortfall i s else rd (sP s) (i - 1)).
Proof.
  intros Hi Hl. unfold Core.step, Core.settle. cbn [sP].
  rewrite list_lookup_insert_ne by lia.
  rewrite prepare_eq by exact Hi. cbn [sP].
  destruct (breached i s).
  - now rewrite list_lookup_insert_eq.
  - now apply lookup_rd.
Qed.

(** The value on which iteration [i] allocates: [portfolio[i-1]] after the
    injection step. *)
Lemma prepare_P_prev (d : Q) (i : nat) (s : series) :
  (1 <= i)%nat -> (i - 1 < length (sP s))%nat ->
  rd (sP (prepare d i s)) (i - 1) =
  if breached i s then rd (sP s) (i - 1) + shortfall i s else rd (sP s) (i - 1).
Proof.
  intros Hi Hl. rewrite prepare_eq by exact Hi. cbn [sP].
  destruct (breached i s); [| reflexivity].
  now rewrite rd_insert_eq.
Qed.

Lemma step_P_at (d : Q) (i : nat) (s : series) :
  (i < length (sP s))%nat ->
  sP (step d i s) !! i =
  Some (alloc i (prepare d i s) * (1 + rd rr i)
        + (rd (sP (prepare d i s)) (i - 1) - alloc i (prepare d i s)) * (1 + rd rf i)).
Proof.
  intros Hl. unfold Core.step, Core.settle. cbn [sP].
  apply list_lookup_insert_eq.
  unfold Core.prepare, Core.inject.
  destruct (Core.breached _ _ _); cbn [Core.raise_floor Core.ratchet sP];
    rewrite ?length_insert; exact Hl.
Qed.

(** ** Iterating *)

Lemma iter_S (d : nat -> Q) (k : nat) (s0 : series) :
  iter d (S k) s0 = step (d (S k)) (S k) (iter d k s0).
Proof. unfold Core.iter. now rewrite seq_S, fold_left_app. Qed.

Lemma iter_sized (n : nat) (d : nat -> Q) (k : nat) (s0 : series) :
  sized n s0 -> sized n (iter d k s0).
Proof.
  intros H. induction k as [| k IH]; [exact H |].
  rewrite iter_S. now apply step_sized.
Qed.

(** Iteration [i] is the last one to write index [i] of [ref_capital],
    [floor] and [margin_trigger], and iteration [i + 1] the last one to write
    [portfolio[i]]. *)
Lemma iter_R_stable (d : nat -> Q) (j k : nat) (s0 : series) :
  (j <= k)%nat -> sR (iter d k s0) !! j = sR (iter d j s0) !! j.
Proof.
  induction k as [| k IH]; intros H.
  - now replace j with 0%nat by lia.
  - destruct (decide (j = S k)) as [-> | Hne]; [reflexivity |].
    rewrite iter_S, step_R_other by lia. apply IH. lia.
Qed.

Lemma iter_F_stable (d : nat -> Q) (j k : nat) (s0 : series) :
  (j <= k)%nat -> sF (iter d k s0) !! j = sF (iter d j s0) !! j.
Proof.
  induction k as [| k IH]; intros H.
  - now replace j with 0%nat by lia.
  - destruct (decide (j = S k)) as [-> | Hne]; [reflexivity |].
    rewrite iter_S, step_F_other by lia. apply IH. lia.
Qed.

Lemma iter_M_stable (d : nat -> Q) (j k : nat) (s0 : series) :
  (j <= k)%nat -> sM (iter d k s0) !! j = sM (iter d j s0) !! j.
Proof.
  induction k as [| k IH]; intros H.
  - now replace j with 0%nat by lia.
  - destruct (decide (j = S k)) as [-> | Hne]; [reflexivity |].
    rewrite iter_S, step_M_other by lia. apply IH. lia.
Qed.

Lemma iter_P_stable (d : nat -> Q) (j k : nat) (s0 : series) :
  (S j <= k)%nat -> sP (iter d k s0) !! j = sP (iter d (S j) s0) !! j.
Proof.
  induction k as [| k IH]; intros H; [lia |].
  destruct (decide (j = k)) as [-> | Hne]; [reflexivity |].
  rewrite iter_S, step_P_other by lia. apply IH. lia.
Qed.

(** Iterations up to [k] leave the indices above [k] as they were. *)
Lemma iter_M_future (d : nat -> Q) (j k : nat) (s0 : series) :
  (k < j)%nat -> sM (iter d k s0) !! j = sM s0 !! j.
Proof.
  induction k as [| k IH]; intros H; [reflexivity |].
  rewrite iter_S, step_M_other by lia. apply IH. lia.
Qed.

Lemma iter_P_future (d : nat -> Q) (j k : nat) (s0 : series) :
  (k < j)%nat -> sP (iter d k s0) !! j = sP s0 !! j.
Proof.
  induction k as [| k IH]; intros H; [reflexivity |].
  rewrite iter_S, step_P_other by lia. apply IH. lia.
Qed.

(** ** Floor ratchet *)


(** ** Liquidity injection *)

(** What the run leaves at the indices that iteration [i] writes, in terms
    of the state [iter d (i - 1) s0] on which that iteration starts. *)
Lemma iter_injection_at (n : nat) (d : nat -> Q) (k i : nat) (s0 : series) :
  sized n s0 -> (1 <= i)%nat -> (i <= k)%nat -> (i < n)%nat ->
  let s := iter d (i - 1) s0 in
  sP s !! (i - 1)%nat = Some (rd (sP s) (i - 1))
  /\ sR (iter d k s0) !! (i - 1)%nat = Some (rd (sR s) (i - 1))
  /\ sP (iter d k s0) !! (i - 1)%nat =
     Some (if breached i s then rd (sP s) (i - 1) + shortfall i s else rd (sP s) (i - 1))
  /\ sR (iter d k s0) !! i =
     Some (if breached i s then rd (sR s) (i - 1) - shortfall i s
           else if Qgeb (rd (sP s) (i - 1)) ((1 + lock_in) * rd (sR s) (i - 1))
                then rd (sP s) (i - 1) else rd (sR s) (i - 1))
  /\ sM (iter d k s0) !! i = if breached i s then Some (shortfall i s) else sM s0 !! i.
Proof.
  intros Hs Hi Hk Hn. destruct i as [| j]; [lia |].
  replace (S j - 1)%nat with j by lia. cbv zeta.
  destruct (iter_sized n d j s0 Hs) as (HP & HR & HM & HF).
  split; [apply lookup_rd; lia |].
  split; [rewrite iter_R_stable by lia; apply lookup_rd; lia |].
  split; [| split].
  - rewrite iter_P_stable by lia. rewrite iter_S.
    replace j with (S j - 1)%nat at 1 by lia.
    rewrite step_P_prev by lia.
    now replace (S j - 1)%nat with j by lia.
  - rewrite iter_R_stable by lia. rewrite iter_S, step_R_at by lia.
    now replace (S j - 1)%nat with j by lia.
  - rewrite iter_M_stable by lia. rewrite iter_S, step_M_at by lia.
    destruct (breached (S j) (iter d j s0)); [reflexivity |].
    apply iter_M_future. lia.
Qed.

(** ** Index 0 *)

Lemma iter_index0 (n : nat) (d : nat -> Q) (k : nat) (s0 : series) (c : Q) :
  sized n s0 -> sP s0 !! 0%nat = Some c -> sR s0 !! 0%nat = Some c ->
  0 <= c -> mcr <= 1 ->
  breached 1 s0 = false
  /\ sP (iter d k s0) !! 0%nat = Some c
  /\ sR (iter d k s0) !! 0%nat = sR s0 !! 0%nat
  /\ sF (iter d k s0) !! 0%nat = sF s0 !! 0%nat
  /\ sM (iter d k s0) !! 0%nat = sM s0 !! 0%nat.
Proof.
  intros Hs HP HR Hc Hm.
  assert (Hb : breached 1 s0 = false).
  { unfold Core.breached. cbn [Nat.sub].
    rewrite (rd_lookup _ _ _ HP), (rd_lookup _ _ _ HR).
    apply Qltb_ge. nra. }
  split; [exact Hb |].
  split; [| split; [| split]].
  - destruct k as [| k]; [exact HP |].
    rewrite iter_P_stable by lia.
    change (iter d 1 s0) with (step (d 1%nat) 1 s0).
    change 0%nat with (1 - 1)%nat at 1.
    rewrite step_P_prev; [| lia | apply lookup_lt_Some in HP; exact HP].
    rewrite Hb. cbn [Nat.sub]. now rewrite (rd_lookup _ _ _ HP).
  - now rewrite iter_R_stable by lia.
  - now rewrite iter_F_stable by lia.
  - now rewrite iter_M_stable by lia.
Qed.

(** ** Allocation *)



(** With requirement ratios in [0,1] and no return below -100%, the
    portfolio and the reference capital never become negative, so that the
    lower clamp stays below the upper one. *)
Section Nonneg.
Hypothesis mrr_range : 0 <= mrr /\ mrr <= 1.
Hypothesis mcr_range : 0 <= mcr /\ mcr <= 1.
Hypothesis rr_range : forall j, -1 <= rd rr j.
Hypothesis rf_range : forall j, -1 <= rd rf j.





End Nonneg.

End CoreFacts.

(** * part_000 follows the recurrence *)
Section IncrementalFacts.
Variable pow : Q -> Q -> Q.
Variable self : Incremental.TIPP.

Import Incremental.

Local Abbreviation cstep :=
  (Core.step (_lock_in self) (_min_capital_req self) (_multiplier self)
             (_min_risk_req self) (_rr self) (_rf self)).
Local Abbreviation cprepare := (Core.prepare (_lock_in self) (_min_capital_req self)).
Local Abbreviation calloc := (Core.alloc (_multiplier self) (_min_risk_req self)).

Lemma inc_before_allocation (i : nat) (f : frame) :
  inc_views (before_allocation self i f) = cprepare (discount_factor f) i (inc_views f)
  /\ local_compounded_period (before_allocation self i f) = local_compounded_period f
  /\ discount_factor (before_allocation self i f) = discount_factor f.
Proof.
  unfold before_allocation, inject_liquidity, update_floor, update_ref_capital.
  unfold Core.prepare, Core.inject, Core.raise_floor, Core.ratchet, Core.breached,
    Core.shortfall, inc_views.
  cbn [portfolio_view ref_capital_view margin_trigger_view floor_view
       local_compounded_period discount_factor Core.sP Core.sR Core.sM Core.sF].
  destruct (Qgeb _ _); destruct (Qgtb _ _);
    cbn [portfolio_view ref_capital_view margin_trigger_view floor_view
         local_compounded_period discount_factor Core.sP Core.sR Core.sM Core.sF];
    destruct (Qltb _ _);
    cbn [portfolio_view ref_capital_view margin_trigger_view floor_view
         local_compounded_period discount_factor Core.sP Core.sR Core.sM Core.sF];
    auto.
Qed.


Lemma inc_loop_body (i : nat) (f : frame) :
  inc_views (loop_body pow self i f) = cstep (discount_factor f) i (inc_views f)
  /\ local_compounded_period (loop_body pow self i f)
     = local_compounded_period f - 1 / _freq self
  /\ discount_factor (loop_body pow self i f)
     = pow (1 + rd (_rf self) i * _freq self / 252)
           (local_compounded_period f - 1 / _freq self).
Proof.
  destruct (inc_before_allocation i f) as (Hv & Hc & Hd).
  unfold loop_body, update_portfolio.
  cbn [portfolio_view ref_capital_view margin_trigger_view floor_view
       local_compounded_period discount_factor].
  rewrite Hc. split; [| split; reflexivity].
  unfold Core.step. rewrite <- Hv. reflexivity.
Qed.

Lemma inc_run_loop_S (k : nat) :
  run_loop pow self (S k) = loop_body pow self (S k) (run_loop pow self k).
Proof. unfold run_loop. now rewrite seq_S, fold_left_app. Qed.

(** The loop state after [k] iterations. *)
Lemma inc_run_loop (k : nat) :
  inc_views (run_loop pow self k) = inc_iter pow self k
  /\ local_compounded_period (run_loop pow self k) = inc_exponent self k
  /\ discount_factor (run_loop pow self k)
     = pow (1 + rd (_rf self) k * _freq self / 252) (inc_exponent self k).
Proof.
  induction k as [| k (IHv & IHc & IHd)].
  - repeat split.
  - rewrite inc_run_loop_S.
    destruct (inc_loop_body (S k) (run_loop pow self k)) as (Hv & Hc & Hd).
    rewrite Hv, Hc, Hd, IHv, IHc, IHd. repeat split.
    unfold inc_iter. rewrite iter_S. unfold inc_discount.
    now replace (S k - 1)%nat with k by lia.
Qed.

Lemma inc_init_sized :
  Core.sized (length (_rr self)) (inc_views (run_init pow self)).
Proof.
  unfold Core.sized, inc_views, run_init.
  cbn [portfolio_view ref_capital_view margin_trigger_view floor_view
       Core.sP Core.sR Core.sM Core.sF].
  now rewrite !length_fmap, !length_replicate.
Qed.

End IncrementalFacts.

(** * tipp_.pyx follows the recurrence *)

Lemma for_in_snoc {S : Type} (body : nat -> S -> result S) (l : list nat) (i : nat) (s : S) :
  for_in body (l ++ [i]) s
  = match for_in body l s with Ok s' => body i s' | Raise e => Raise e end.
Proof.
  revert s. induction l as [| j l IH]; intros s; simpl.
  - now destruct (body i s).
  - destruct (body j s); [apply IH | reflexivity].
Qed.

Section VectorizedFacts.
Variable pow : Q -> Q -> Q.
Variables (t : Vectorized.TIPP) (n : nat) (D : list Q).
Hypothesis rr_len : length (Vectorized._rr t) = n.
Hypothesis rf_len : length (Vectorized._rf t) = n.
Hypothesis D_len : length D = n.
Hypothesis freq_nz : ~ Vectorized._freq t == 0.

Import Vectorized.

Local Abbreviation cstep :=
  (Core.step (_lock_in t) (_min_capital_req t) (_multiplier t)
             (_min_risk_req t) (_rr t) (_rf t)).
Local Abbreviation cprepare := (Core.prepare (_lock_in t) (_min_capital_req t)).
Local Abbreviation calloc := (Core.alloc (_multiplier t) (_min_risk_req t)).

Ltac vec_simpl :=
  cbn [vec_pack _capital _multiplier _rr _rf _br _lock_in _min_risk_req _min_capital_req
       _freq _portfolio _ref_capital _margin_trigger _discount _floor _compounded_period
       set_portfolio set_ref_capital set_margin_trigger set_floor set_compounded_period
       Core.sP Core.sR Core.sM Core.sF mbind mret result_bind result_ret].

Ltac vec_read := rewrite ?getitem_rd by (rewrite ?length_insert; lia); vec_simpl.
Ltac vec_write := rewrite ?setitem_ok by (rewrite ?length_insert; lia); vec_simpl.

Lemma vec_update_ref_capital (i : nat) (s : Core.series) (c : Q) :
  Core.sized n s -> (1 <= i)%nat -> (i < n)%nat ->
  update_ref_capital i (vec_pack t s D c)
  = Ok (vec_pack t (Core.ratchet (_lock_in t) i s) D c).
Proof.
  intros (HP & HR & HM & HF) Hi Hn.
  unfold update_ref_capital, _should_update_lock_in. vec_simpl. vec_read.
  unfold Core.ratchet.
  destruct (Qgeb _ _); vec_read; vec_write; reflexivity.
Qed.

Lemma vec_update_floor (i : nat) (s : Core.series) (c : Q) :
  Core.sized n s -> (1 <= i)%nat -> (i < n)%nat ->
  update_floor i (vec_pack t s D c)
  = Ok (vec_pack t (Core.raise_floor (rd D (i - 1)) i s) D c).
Proof.
  intros (HP & HR & HM & HF) Hi Hn.
  unfold update_floor, _should_update_floor. vec_simpl. vec_read.
  unfold Core.raise_floor.
  destruct (Qgtb _ _); vec_read; vec_write; reflexivity.
Qed.

Lemma vec_inject_liquidity (i : nat) (s : Core.series) (c : Q) :
  Core.sized n s -> (1 <= i)%nat -> (i < n)%nat ->
  inject_liquidity i (vec_pack t s D c)
  = Ok (vec_pack t (Core.inject (_min_capital_req t) i s) D c).
Proof.
  intros (HP & HR & HM & HF) Hi Hn.
  unfold inject_liquidity, _should_inject_liquidity. vec_simpl. vec_read.
  unfold Core.inject, Core.breached, Core.shortfall.
  destruct (Qltb _ _); [| reflexivity].
  vec_read. vec_write. vec_read. vec_write. vec_write. reflexivity.
Qed.

Lemma vec_risk_allocation (i : nat) (s : Core.series) (c : Q) :
  Core.sized n s -> (1 <= i)%nat -> (i < n)%nat ->
  risk_allocation i (vec_pack t s D c) = Ok (calloc i s).
Proof.
  intros (HP & HR & HM & HF) Hi Hn.
  unfold risk_allocation, _get_risk_allocation_mix. vec_simpl. vec_read.
  reflexivity.
Qed.

Lemma vec_update_portfolio (i : nat) (s : Core.series) (c : Q) :
  Core.sized n s -> (1 <= i)%nat -> (i < n)%nat ->
  update_portfolio i (vec_pack t s D c)
  = Ok (vec_pack t (Core.settle (_multiplier t) (_min_risk_req t) (_rr t) (_rf t) i s) D
                 (c - 1 / _freq t)).
Proof.
  intros Hs Hi Hn.
  unfold update_portfolio. rewrite (vec_risk_allocation i s c Hs Hi Hn).
  destruct Hs as (HP & HR & HM & HF).
  unfold _update_portfolio_mix. vec_simpl. vec_read. vec_write.
  rewrite cdiv_ok by exact freq_nz. vec_simpl. reflexivity.
Qed.

Lemma ratchet_sized (i : nat) (s : Core.series) :
  Core.sized n s -> Core.sized n (Core.ratchet (_lock_in t) i s).
Proof.
  intros (HP & HR & HM & HF). unfold Core.sized, Core.ratchet. cbn.
  now rewrite length_insert.
Qed.

Lemma raise_floor_sized (d : Q) (i : nat) (s : Core.series) :
  Core.sized n s -> Core.sized n (Core.raise_floor d i s).
Proof.
  intros (HP & HR & HM & HF). unfold Core.sized, Core.raise_floor. cbn.
  now rewrite length_insert.
Qed.

Lemma inject_sized (i : nat) (s : Core.series) :
  Core.sized n s -> Core.sized n (Core.inject (_min_capital_req t) i s).
Proof.
  intros (HP & HR & HM & HF). unfold Core.sized, Core.inject.
  destruct (Core.breached _ _ _); cbn; rewrite ?length_insert; auto.
Qed.

Lemma vec_before_allocation (i : nat) (s : Core.series) (c : Q) :
  Core.sized n s -> (1 <= i)%nat -> (i < n)%nat ->
  before_allocation i (vec_pack t s D c) = Ok (vec_pack t (cprepare (rd D (i - 1)) i s) D c).
Proof.
  intros Hs Hi Hn. unfold before_allocation.
  rewrite vec_update_ref_capital by assumption. vec_simpl.
  rewrite vec_update_floor by (try apply ratchet_sized; assumption). vec_simpl.
  rewrite vec_inject_liquidity
    by (try apply raise_floor_sized; try apply ratchet_sized; assumption).
  reflexivity.
Qed.

Lemma vec_loop_body (i : nat) (s : Core.series) (c : Q) :
  Core.sized n s -> (1 <= i)%nat -> (i < n)%nat ->
  loop_body i (vec_pack t s D c)
  = Ok (vec_pack t (cstep (rd D (i - 1)) i s) D (c - 1 / _freq t)).
Proof.
  intros Hs Hi Hn. unfold loop_body.
  rewrite vec_before_allocation by assumption. vec_simpl.
  rewrite vec_update_portfolio; [reflexivity | | assumption | assumption].
  unfold Core.prepare.
  apply inject_sized, raise_floor_sized, ratchet_sized, Hs.
Qed.

(** [k] iterations from an object whose arrays are set. *)
Lemma vec_for_in (d : nat -> Q) (k : nat) (s0 : Core.series) (c : Q) :
  Core.sized n s0 -> (k <= n - 1)%nat -> (forall i, d i = rd D (i - 1)) ->
  for_in loop_body (seq 1 k) (vec_pack t s0 D c)
  = Ok (vec_pack t
          (Core.iter (_lock_in t) (_min_capital_req t) (_multiplier t) (_min_risk_req t)
                     (_rr t) (_rf t) d k s0)
          D (exponent_after (_freq t) c k)).
Proof.
  intros Hs Hk Hd. induction k as [| k IH]; [reflexivity |].
  rewrite seq_S, for_in_snoc, IH by lia.
  rewrite vec_loop_body; [| now apply iter_sized | cbn; lia | cbn; lia].
  rewrite iter_S, Hd. reflexivity.
Qed.

End VectorizedFacts.

Section VectorizedRun.
Variable pow : Q -> Q -> Q.
Variable self : Vectorized.TIPP.
Hypothesis self_wf : Vectorized.wf self.

Import Vectorized.

Lemma vec_init_sized : Core.sized (length (_rr self)) (vec_init pow self).
Proof.
  destruct self_wf as [Hrf _].
  unfold Core.sized, vec_init, vec_discounts. cbn [Core.sP Core.sR Core.sM Core.sF].
  now rewrite !length_fmap, !length_replicate.
Qed.

Lemma vec_run_loop (k : nat) :
  (k <= length (_rr self) - 1)%nat ->
  run_loop pow self k
  = Ok (vec_pack self (vec_iter pow self k) (vec_discounts pow self)
                 (exponent_after (_freq self) (_compounded_period self) k)).
Proof.
  intros Hk. destruct self_wf as [Hrf Hfreq].
  unfold run_loop.
  change (run_init pow self)
    with (vec_pack self (vec_init pow self) (vec_discounts pow self)
                   (_compounded_period self)).
  apply (vec_for_in self (length (_rr self))); auto.
  - unfold vec_discounts. now rewrite length_fmap.
  - apply vec_init_sized.
Qed.

Lemma vec_run :
  run pow self
  = Ok (vec_pack self (vec_iter pow self (length (_rr self) - 1)) (vec_discounts pow self)
                 (exponent_after (_freq self) (_compounded_period self)
                                 (length (_rr self) - 1))).
Proof. unfold run. now apply vec_run_loop. Qed.

End VectorizedRun.

(** * What [run] leaves in the attributes *)

Lemma inc_run_outputs (pow : Q -> Q -> Q) (self : Incremental.TIPP) :
  let s := inc_iter pow self (length (Incremental._rr self) - 1) in
  Incremental.portfolio (Incremental.run pow self) = Some (Core.sP s)
  /\ Incremental.ref_capital (Incremental.run pow self) = Some (Core.sR s)
  /\ Incremental.margin_trigger (Incremental.run pow self) = Some (Core.sM s)
  /\ Incremental.floor (Incremental.run pow self) = Some (Core.sF s).
Proof.
  destruct (inc_run_loop pow self (length (Incremental._rr self) - 1)) as (Hv & _).
  cbv zeta. rewrite <- Hv. repeat split.
Qed.

Lemma ones_lookup (n i : nat) (c : Q) :
  (i < n)%nat -> ((fun x => x * c) <$> replicate n 1) !! i = Some (1 * c).
Proof. intros H. now rewrite list_lookup_fmap, lookup_replicate_2. Qed.




Lemma zeros_lookup (n i : nat) : (i < n)%nat -> replicate n 0 !! i = Some 0.
Proof. apply lookup_replicate_2. Qed.


(** ** The benchmark series *)

Section Benchmark.
Variable pow : Q -> Q -> Q.
Variable b : list Q.

Import Vectorized.

Ltac result_cases :=
  unfold mbind, mret, result_bind, result_ret, result_map;
  repeat match goal with
         | |- context [match ?x with Ok _ => _ | Raise _ => _ end] =>
             lazymatch x with
             | context [match _ with Ok _ => _ | Raise _ => _ end] => fail
             | context [if _ then _ else _] => fail
             | _ => destruct x
             end
         | |- context [if ?x then _ else _] =>
             lazymatch x with
             | context [match _ with Ok _ => _ | Raise _ => _ end] => fail
             | _ => destruct x
             end
         end;
  try reflexivity.

Lemma vec_update_ref_capital_br (i : nat) (t : TIPP) :
  update_ref_capital i (vec_with_br b t) = result_map (vec_with_br b) (update_ref_capital i t).
Proof.
  unfold update_ref_capital.
  change (_should_update_lock_in (vec_with_br b t)) with (_should_update_lock_in t).
  cbn [vec_with_br _portfolio _ref_capital].
  result_cases.
Qed.

Lemma vec_update_floor_br (i : nat) (t : TIPP) :
  update_floor i (vec_with_br b t) = result_map (vec_with_br b) (update_floor i t).
Proof.
  unfold update_floor.
  change (_should_update_floor (vec_with_br b t)) with (_should_update_floor t).
  cbn [vec_with_br _portfolio _discount _floor].
  result_cases.
Qed.

Lemma vec_inject_liquidity_br (i : nat) (t : TIPP) :
  inject_liquidity i (vec_with_br b t) = result_map (vec_with_br b) (inject_liquidity i t).
Proof.
  unfold inject_liquidity.
  change (_should_inject_liquidity (vec_with_br b t)) with (_should_inject_liquidity t).
  cbn [vec_with_br _portfolio _ref_capital _margin_trigger _min_capital_req
       set_ref_capital set_portfolio].
  result_cases.
Qed.

Lemma vec_update_portfolio_br (i : nat) (t : TIPP) :
  update_portfolio i (vec_with_br b t) = result_map (vec_with_br b) (update_portfolio i t).
Proof.
  unfold update_portfolio.
  change (risk_allocation i (vec_with_br b t)) with (risk_allocation i t).
  change (_update_portfolio_mix (vec_with_br b t)) with (_update_portfolio_mix t).
  cbn [vec_with_br _portfolio _freq _compounded_period set_portfolio].
  result_cases.
Qed.

Lemma vec_loop_body_br (i : nat) (t : TIPP) :
  loop_body i (vec_with_br b t) = result_map (vec_with_br b) (loop_body i t).
Proof.
  unfold loop_body, before_allocation.
  rewrite vec_update_ref_capital_br.
  destruct (update_ref_capital i t) as [t1 |]; [| reflexivity].
  cbn [mbind result_bind result_map]. rewrite vec_update_floor_br.
  destruct (update_floor i t1) as [t2 |]; [| reflexivity].
  cbn [mbind result_bind result_map]. rewrite vec_inject_liquidity_br.
  destruct (inject_liquidity i t2) as [t3 |]; [| reflexivity].
  cbn [mbind result_bind result_map]. apply vec_update_portfolio_br.
Qed.

Lemma vec_for_in_br (l : list nat) (t : TIPP) :
  for_in loop_body l (vec_with_br b t) = result_map (vec_with_br b) (for_in loop_body l t).
Proof.
  revert t. induction l as [| i l IH]; intros t; [reflexivity |].
  cbn [for_in]. rewrite vec_loop_body_br.
  destruct (loop_body i t) as [t' |]; [apply IH | reflexivity].
Qed.

Lemma vec_run_br (t : TIPP) :
  run pow (vec_with_br b t) = result_map (vec_with_br b) (run pow t).
Proof.
  unfold run, run_loop.
  change (run_init pow (vec_with_br b t)) with (vec_with_br b (run_init pow t)).
  apply vec_for_in_br.
Qed.

End Benchmark.

Lemma inc_run_loop_br (pow : Q -> Q -> Q) (b : list Q) (t : Incremental.TIPP) (k : nat) :
  Incremental.run_loop pow (inc_with_br b t) k = Incremental.run_loop pow t k.
Proof.
  induction k as [| k IH]; [reflexivity |].
  rewrite !inc_run_loop_S, IH. reflexivity.
Qed.

Lemma inc_run_br (pow : Q -> Q -> Q) (b : list Q) (t : Incremental.TIPP) :
  Incremental.run pow (inc_with_br b t) = inc_with_br b (Incremental.run pow t).
Proof.
  unfold Incremental.run. cbn [inc_with_br Incremental._rr].
  rewrite inc_run_loop_br. reflexivity.
Qed.

(** ** Construction and the exponent *)

Lemma vec_discounts_lookup (pow : Q -> Q -> Q) (self : Vectorized.TIPP) (j : nat) :
  (j < length (Vectorized._rf self))%nat ->
  vec_discounts pow self !! j
  = Some (pow (1 + rd (Vectorized._rf self) j * Vectorized._freq self / 252)
              (Vectorized._compounded_period self)).
Proof.
  intros H. unfold vec_discounts. now rewrite list_lookup_fmap, (lookup_rd _ _ H).
Qed.

Lemma vec_init_ok capital multiplier rr rf br lock_in min_risk_req min_capital_req freq self :
  Vectorized.__init__ capital multiplier rr rf br lock_in min_risk_req min_capital_req freq
  = Ok self ->
  ~ freq == 0
  /\ self = Vectorized.mkTIPP capital multiplier rr rf br lock_in min_risk_req
              min_capital_req freq None None None None None (of_size (length rr) / freq).
Proof.
  unfold Vectorized.__init__, Vectorized.cdiv.
  destruct (Qeq_bool freq 0) eqn:E; cbn [mbind mret result_bind result_ret];
    [discriminate |].
  intros [= <-]. split; [| reflexivity].
  intros H. apply Qeq_bool_iff in H. congruence.
Qed.

(** * The claims *)

(** C1, as the code has it.  After [run] on series of length n >= 1:
    in part_000, [floor[0]] equals [capital * min_capital_req]; in
    tipp_.pyx, [floor[0]] is [capital * min_capital_req / discount[0]], where
    [discount[0] = pow (1 + rf[0] * freq / 252) compounded_period] with the
    value [compounded_period] has when [run] is called. *)
Theorem floor_index0 (pow : Q -> Q -> Q) :
  (forall self : Incremental.TIPP,
     Incremental.wf self -> (1 <= length (Incremental._rr self))%nat ->
     exists x,
       item (Incremental.floor (Incremental.run pow self)) 0 = Some x
       /\ x == Incremental._capital self * Incremental._min_capital_req self)
  /\ (forall self : Vectorized.TIPP,
     Vectorized.wf self -> (1 <= length (Vectorized._rr self))%nat ->
     exists out x d rf_0,
       Vectorized.run pow self = Ok out
       /\ item (Vectorized.floor out) 0 = Some x
       /\ item (Vectorized.discount out) 0 = Some d
       /\ Vectorized._rf self !! 0%nat = Some rf_0
       /\ d = pow (1 + rf_0 * Vectorized._freq self / 252)
                  (Vectorized._compounded_period self)
       /\ x = Vectorized._capital self * Vectorized._min_capital_req self / d).
Proof.
  split.
  - intros self _ Hn.
    destruct (inc_run_outputs pow self) as (_ & _ & _ & HF). rewrite HF.
    unfold item, inc_iter. rewrite iter_F_stable by lia.
    eexists. split; [cbn; apply ones_lookup; lia |]. ring.
  - intros self Hwf Hn. pose proof Hwf as [Hrf Hfreq].
    eexists. exists (Vectorized._capital self * Vectorized._min_capital_req self
                     / rd (vec_discounts pow self) 0).
    exists (rd (vec_discounts pow self) 0), (rd (Vectorized._rf self) 0).
    split; [apply (vec_run pow self Hwf) |].
    cbn [vec_pack Vectorized.floor Vectorized.discount Vectorized._floor
         Vectorized._discount item].
    unfold vec_iter. rewrite iter_F_stable by lia.
    assert (HD : vec_discounts pow self !! 0%nat = Some (rd (vec_discounts pow self) 0))
      by (apply lookup_rd; unfold vec_discounts; rewrite length_fmap; lia).
    split; [cbn [Core.iter seq fold_left vec_init Core.sF];
            now rewrite list_lookup_fmap, HD |].
    split; [exact HD |].
    split; [apply lookup_rd; lia |].
    split; [| reflexivity].
    apply rd_lookup, vec_discounts_lookup. lia.
Qed.

(** C2.  In part_000 the constructor raises [ValueError] exactly when the
    three series do not all have the same length, and returns an object
    exactly when they do.  In tipp_.pyx the check is commented out: a
    construction with [len(rr) = 2] and [len(rf) = 1] returns an object, on
    which [run] then raises [IndexError]. *)
Theorem init_length_check :
  (forall capital multiplier rr rf br lock_in min_risk_req min_capital_req freq,
     ((exists msg, Incremental.__init__ capital multiplier rr rf br lock_in min_risk_req
                     min_capital_req freq = Raise (ValueError msg))
      <-> (length rr <> length rf \/ length rr <> length br))
     /\ ((exists self, Incremental.__init__ capital multiplier rr rf br lock_in min_risk_req
                        min_capital_req freq = Ok self)
         <-> (length rr = length rf /\ length rr = length br)))
  /\ (exists self,
        Vectorized.__init__ 100 1 [0; 0] [0] [0; 0] (1 # 8) (1 # 4) (1 # 2) 1 = Ok self
        /\ Vectorized.run pow_int self = Raise IndexError).
Proof.
  split.
  - intros. unfold Incremental.__init__.
    destruct (Nat.eqb_spec (length rr) (length rf)) as [E1 | E1];
      destruct (Nat.eqb_spec (length rr) (length br)) as [E2 | E2];
      cbn [negb orb]; split; split;
      try (intros [? [=]]); try (intros [? ?]); try (intros [? | ?]);
      try congruence; eauto.
  - eexists. split; [reflexivity | run_code].
Qed.

(** The second call differs through the exponent alone: tipp_.pyx assigns
    the five arrays anew at the start of [run], so that [run] on any object
    is [run] on the object with its arrays unset. *)
Lemma vec_run_unset (pow : Q -> Q -> Q) (t : Vectorized.TIPP) :
  Vectorized.run pow t = Vectorized.run pow (vec_unset t).
Proof. reflexivity. Qed.

(** In part_000 a second call repeats the first: [run] reads only the
    configuration and the input series. *)
Lemma inc_run_loop_again (pow : Q -> Q -> Q) (self : Incremental.TIPP) (k : nat) :
  Incremental.run_loop pow (Incremental.run pow self) k = Incremental.run_loop pow self k.
Proof.
  induction k as [| k IH]; [reflexivity |].
  rewrite !inc_run_loop_S, IH. reflexivity.
Qed.

Lemma inc_run_idempotent (pow : Q -> Q -> Q) (self : Incremental.TIPP) :
  Incremental.run pow (Incremental.run pow self) = Incremental.run pow self.
Proof.
  unfold Incremental.run at 1 3. cbn [Incremental._rr Incremental.run].
  rewrite inc_run_loop_again. reflexivity.
Qed.

(** C3, as the code has it.  In tipp_.pyx [run] is not idempotent: there is
    a construction on which a second call of [run] leaves a floor and a
    portfolio series that differ from those of the first call.  The cause is
    the attribute [compounded_period] alone, which the first call leaves
    decremented and from which the second call computes its discount array:
    the five arrays are assigned anew at the start of every [run], so [run]
    on any object is [run] on that object with its arrays unset.  In
    part_000 [run] is idempotent. *)
Theorem run_not_idempotent :
  (exists t first second x y p q d d',
    Vectorized.__init__ 100 1 [0; 0] [252; 252] [0; 0] (1 # 8) (1 # 4) (1 # 2) 1 = Ok t
    /\ Vectorized.wf t
    /\ Vectorized.run pow_int t = Ok first
    /\ Vectorized.run pow_int first = Ok second
    /\ item (Vectorized.floor first) 0 = Some x
    /\ item (Vectorized.floor second) 0 = Some y
    /\ ~ x == y
    /\ item (Vectorized.portfolio first) 1 = Some p
    /\ item (Vectorized.portfolio second) 1 = Some q
    /\ ~ p == q
    /\ ~ Vectorized.compounded_period first == Vectorized.compounded_period t
    /\ item (Vectorized.discount first) 0 = Some d
    /\ d == pow_int 2 (Vectorized.compounded_period t)
    /\ item (Vectorized.discount second) 0 = Some d'
    /\ d' == pow_int 2 (Vectorized.compounded_period first))
  /\ (forall (pow : Q -> Q -> Q) (t : Vectorized.TIPP),
        Vectorized.run pow t = Vectorized.run pow (vec_unset t))
  /\ (forall (pow : Q -> Q -> Q) (self : Incremental.TIPP),
        Incremental.run pow (Incremental.run pow self) = Incremental.run pow self).
Proof.
  split; [| split; [exact vec_run_unset | exact inc_run_idempotent]].
  do 9 eexists.
  split; [reflexivity |].
  split; [split; [reflexivity | differ] |].
  split; [run_code |]. split; [run_code |].
  split; [run_code |]. split; [run_code |]. split; [differ |].
  split; [run_code |]. split; [run_code |]. split; [differ |]. split; [differ |].
  split; [run_code |]. split; [reflexivity |]. split; [run_code | reflexivity].
Qed.

(** C4, as the code has it.  In tipp_.pyx, [run] decrements the attribute
    [compounded_period] by [1 / freq] once per iteration: after [run] the
    accessor returns the value it had before with [1 / freq] subtracted
    [n - 1] times, one subtraction after the other, which on a newly
    constructed object starts from [n / freq].  (In exact arithmetic that is
    [1 / freq]; the binary64 subtractions need not reach it.)  In part_000,
    [run] decrements a local copy and the accessor returns the value it had
    before [run]. *)
Theorem compounded_period_after_run (pow : Q -> Q -> Q) :
  (forall self : Vectorized.TIPP,
     Vectorized.wf self ->
     exists out,
       Vectorized.run pow self = Ok out
       /\ Vectorized.compounded_period out
          = exponent_after (Vectorized._freq self) (Vectorized.compounded_period self)
                           (length (Vectorized._rr self) - 1))
  /\ (forall capital multiplier rr rf br lock_in min_risk_req min_capital_req freq self,
     Vectorized.__init__ capital multiplier rr rf br lock_in min_risk_req
                         min_capital_req freq = Ok self ->
     length rf = length rr -> (1 <= length rr)%nat ->
     exists out,
       Vectorized.run pow self = Ok out
       /\ Vectorized.compounded_period self = of_size (length rr) / freq
       /\ Vectorized.compounded_period out
          = exponent_after freq (of_size (length rr) / freq) (length rr - 1))
  /\ (forall self : Incremental.TIPP,
     Incremental.compounded_period (Incremental.run pow self)
     = Incremental.compounded_period self).
Proof.
  split; [| split].
  - intros self Hwf. eexists. split; [apply (vec_run pow self Hwf) |]. reflexivity.
  - intros capital multiplier rr rf br lock_in mrr mcr freq self Hinit Hrf Hn.
    destruct (vec_init_ok _ _ _ _ _ _ _ _ _ _ Hinit) as [Hfreq ->].
    eexists. split; [apply vec_run; split; assumption |].
    cbn [vec_pack Vectorized.compounded_period Vectorized._compounded_period
         Vectorized._freq Vectorized._rr].
    split; reflexivity.
  - reflexivity.
Qed.

(** C5, as the code has it.  With [p = portfolio[i-1]] and [fl = floor[i-1]]
    when iteration [i] starts, the iteration stores [p * d] in [floor[i]] if
    [p * d > fl] and [fl] otherwise.  In part_000, [d] is
    [pow (1 + rf[i-1] * freq / 252) c] with [c] the running exponent at that
    step, [n / freq] decremented [i - 1] times by [1 / freq].  In tipp_.pyx,
    [d] is [discount[i-1] = pow (1 + rf[i-1] * freq / 252) c0] with [c0] the
    value of [compounded_period] when [run] was called, the same exponent
    for every [i], although the attribute has by then been decremented
    [i - 1] times. *)
Theorem discount_factor_exponent (pow : Q -> Q -> Q) (i : nat) :
  (forall self : Incremental.TIPP,
     Incremental.wf self ->
     (1 <= i)%nat -> (i <= length (Incremental._rr self) - 1)%nat ->
     let f := Incremental.run_loop pow self (i - 1) in
     exists p fl rf_prev,
       Incremental.portfolio_view f !! (i - 1)%nat = Some p
       /\ Incremental.floor_view f !! (i - 1)%nat = Some fl
       /\ Incremental._rf self !! (i - 1)%nat = Some rf_prev
       /\ Incremental.local_compounded_period f
          = exponent_after (Incremental._freq self)
              (of_size (length (Incremental._rr self)) / Incremental._freq self) (i - 1)
       /\ Incremental.discount_factor f
          = pow (1 + rf_prev * Incremental._freq self / 252)
                (Incremental.local_compounded_period f)
       /\ Incremental.floor_view (Incremental.loop_body pow self i f) !! i
          = Some (if Qgtb (p * Incremental.discount_factor f) fl
                  then p * Incremental.discount_factor f else fl))
  /\ (forall self : Vectorized.TIPP,
     Vectorized.wf self ->
     (1 <= i)%nat -> (i <= length (Vectorized._rr self) - 1)%nat ->
     exists t t' p fl d rf_prev,
       Vectorized.run_loop pow self (i - 1) = Ok t
       /\ Vectorized.loop_body i t = Ok t'
       /\ item (Vectorized.portfolio t) (i - 1) = Some p
       /\ item (Vectorized.floor t) (i - 1) = Some fl
       /\ item (Vectorized.discount t) (i - 1) = Some d
       /\ Vectorized._rf self !! (i - 1)%nat = Some rf_prev
       /\ Vectorized.compounded_period t
          = exponent_after (Vectorized._freq self) (Vectorized.compounded_period self)
                           (i - 1)
       /\ d = pow (1 + rf_prev * Vectorized._freq self / 252)
                  (Vectorized.compounded_period self)
       /\ item (Vectorized.floor t') i = Some (if Qgtb (p * d) fl then p * d else fl)).
Proof.
  split.
  - intros self [Hrf _] Hi Hn f.
    set (n := length (Incremental._rr self)) in *.
    destruct (inc_run_loop pow self (i - 1)) as (Hv & Hc & Hd). fold f in Hv, Hc, Hd.
    pose proof (iter_sized (Incremental._lock_in self) (Incremental._min_capital_req self)
                  (Incremental._multiplier self) (Incremental._min_risk_req self)
                  (Incremental._rr self) (Incremental._rf self)
                  n (inc_discount pow self) (i - 1) _ (inc_init_sized pow self)) as Hs.
    fold (inc_iter pow self (i - 1)) in Hs. rewrite <- Hv in Hs.
    destruct Hs as (HP & _ & _ & HF). cbn [inc_views Core.sP Core.sF] in HP, HF.
    exists (rd (Incremental.portfolio_view f) (i - 1)),
           (rd (Incremental.floor_view f) (i - 1)),
           (rd (Incremental._rf self) (i - 1)).
    split; [apply lookup_rd; lia |]. split; [apply lookup_rd; lia |].
    split; [apply lookup_rd; lia |]. split; [exact Hc |].
    split; [rewrite Hd, Hc; reflexivity |].
    destruct (inc_loop_body pow self i f) as (Hb & _).
    change (Incremental.floor_view (Incremental.loop_body pow self i f))
      with (Core.sF (inc_views (Incremental.loop_body pow self i f))).
    rewrite Hb. apply step_F_at; [lia |]. cbn [inc_views Core.sF]. lia.
  - intros self Hwf Hi Hn. pose proof Hwf as [Hrf Hfreq].
    set (n := length (Vectorized._rr self)) in *.
    pose proof (iter_sized (Vectorized._lock_in self) (Vectorized._min_capital_req self)
                  (Vectorized._multiplier self) (Vectorized._min_risk_req self)
                  (Vectorized._rr self) (Vectorized._rf self)
                  n (vec_discount pow self) (i - 1) _ (vec_init_sized pow self Hwf)) as Hs.
    fold (vec_iter pow self (i - 1)) in Hs.
    assert (HD : length (vec_discounts pow self) = n)
      by (unfold vec_discounts; now rewrite length_fmap).
    do 2 eexists.
    exists (rd (Core.sP (vec_iter pow self (i - 1))) (i - 1)),
           (rd (Core.sF (vec_iter pow self (i - 1))) (i - 1)),
           (rd (vec_discounts pow self) (i - 1)),
           (rd (Vectorized._rf self) (i - 1)).
    split; [apply (vec_run_loop pow self Hwf); lia |].
    split; [apply (vec_loop_body self n); auto; lia |].
    destruct Hs as (HP & _ & _ & HF).
    cbn [vec_pack Vectorized.portfolio Vectorized.floor Vectorized.discount
         Vectorized.compounded_period Vectorized._portfolio Vectorized._floor
         Vectorized._discount Vectorized._compounded_period item].
    split; [apply lookup_rd; lia |]. split; [apply lookup_rd; lia |].
    split; [apply lookup_rd; lia |]. split; [apply lookup_rd; lia |].
    split; [reflexivity |].
    split; [apply rd_lookup, vec_discounts_lookup; lia |].
    apply step_F_at; lia.
Qed.




(** C9.  The benchmark series does not influence the simulation: two
    constructions that differ only in [br] (of one length) both fail with the
    same exception or both succeed, and then [run] leaves identical
    [portfolio], [ref_capital], [floor], [margin_trigger] and
    [compounded_period] (in tipp_.pyx: or raises the same exception).  This
    holds in part_000 and in tipp_.pyx. *)
Theorem benchmark_unused (pow : Q -> Q -> Q) (capital multiplier : Q) (rr rf br br' : list Q)
    (lock_in min_risk_req min_capital_req freq : Q) :
  length br = length br' ->
  match Incremental.__init__ capital multiplier rr rf br lock_in min_risk_req
                             min_capital_req freq,
        Incremental.__init__ capital multiplier rr rf br' lock_in min_risk_req
                             min_capital_req freq with
  | Ok t, Ok t' => inc_outputs (Incremental.run pow t) = inc_outputs (Incremental.run pow t')
  | Raise e, Raise e' => e = e'
  | _, _ => False
  end
  /\ match Vectorized.__init__ capital multiplier rr rf br lock_in min_risk_req
                               min_capital_req freq,
           Vectorized.__init__ capital multiplier rr rf br' lock_in min_risk_req
                               min_capital_req freq with
     | Ok t, Ok t' =>
         match Vectorized.run pow t, Vectorized.run pow t' with
         | Ok out, Ok out' => vec_outputs out = vec_outputs out'
         | Raise e, Raise e' => e = e'
         | _, _ => False
         end
     | Raise e, Raise e' => e = e'
     | _, _ => False
     end.
Proof.
  intros Hlen. split.
  - unfold Incremental.__init__. rewrite <- Hlen.
    destruct (negb _ || negb _); [reflexivity |].
    match goal with
    | |- inc_outputs (Incremental.run pow ?t) = inc_outputs (Incremental.run pow ?t') =>
        change t' with (inc_with_br br' t)
    end.
    rewrite inc_run_br. reflexivity.
  - unfold Vectorized.__init__.
    destruct (Vectorized.cdiv _ _) as [c |]; [| reflexivity].
    cbn [mbind mret result_bind result_ret].
    match goal with
    | |- context [Vectorized.run pow ?t'] =>
        match t' with context [br'] =>
          match goal with
          | |- context [Vectorized.run pow ?t] =>
              match t with context [br] =>
                change t' with (vec_with_br br' t) end end end end.
    rewrite vec_run_br.
    destruct (Vectorized.run pow _) as [out |]; reflexivity.
Qed.

(** C10.  With [capital > 0] and [min_capital_req] in [0,1], the loop never
    writes index 0: after [run], [portfolio[0]], [ref_capital[0]] and
    [floor[0]] are the values assigned before the loop, [margin_trigger[0]]
    is 0, and the injection test of iteration 1 is false.  This holds in
    part_000 and in tipp_.pyx. *)
Theorem index0_untouched (pow : Q -> Q -> Q) :
  (forall self : Incremental.TIPP,
     Incremental.wf self ->
     0 < Incremental._capital self ->
     0 <= Incremental._min_capital_req self -> Incremental._min_capital_req self <= 1 ->
     (1 <= length (Incremental._rr self))%nat ->
     let f0 := Incremental.run_init pow self in
     let f1 := Incremental.update_floor 1 (Incremental.update_ref_capital self 1 f0) in
     let out := Incremental.run pow self in
     item (Incremental.portfolio out) 0 = Incremental.portfolio_view f0 !! 0%nat
     /\ item (Incremental.ref_capital out) 0 = Incremental.ref_capital_view f0 !! 0%nat
     /\ item (Incremental.floor out) 0 = Incremental.floor_view f0 !! 0%nat
     /\ item (Incremental.margin_trigger out) 0 = Some 0
     /\ item (Incremental.portfolio out) 0 = Some (1 * Incremental._capital self)
     /\ item (Incremental.ref_capital out) 0 = Some (1 * Incremental._capital self)
     /\ Qltb (rd (Incremental.portfolio_view f1) 0)
             (rd (Incremental.ref_capital_view f1) 0 * Incremental._min_capital_req self)
        = false)
  /\ (forall self : Vectorized.TIPP,
     Vectorized.wf self ->
     0 < Vectorized._capital self ->
     0 <= Vectorized._min_capital_req self -> Vectorized._min_capital_req self <= 1 ->
     (1 <= length (Vectorized._rr self))%nat ->
     let t0 := Vectorized.run_init pow self in
     exists out,
       Vectorized.run pow self = Ok out
       /\ item (Vectorized.portfolio out) 0 = item (Vectorized.portfolio t0) 0
       /\ item (Vectorized.ref_capital out) 0 = item (Vectorized.ref_capital t0) 0
       /\ item (Vectorized.floor out) 0 = item (Vectorized.floor t0) 0
       /\ item (Vectorized.margin_trigger out) 0 = Some 0
       /\ item (Vectorized.portfolio out) 0 = Some (1 * Vectorized._capital self)
       /\ item (Vectorized.ref_capital out) 0 = Some (1 * Vectorized._capital self)
       /\ ((2 <= length (Vectorized._rr self))%nat ->
           exists t1,
             Vectorized.update_ref_capital 1 t0 ≫= Vectorized.update_floor 1 = Ok t1
             /\ Vectorized._should_inject_liquidity t1 0 = Ok false)).
Proof.
  split.
  - intros self _ Hc Hm0 Hm1 Hn f0 f1 out.
    destruct (inc_run_outputs pow self) as (HP & HR & HM & HF).
    subst out. rewrite HP, HR, HM, HF. unfold item.
    assert (HP0 : Core.sP (inc_views f0) !! 0%nat = Some (1 * Incremental._capital self))
      by (apply ones_lookup; lia).
    assert (HR0 : Core.sR (inc_views f0) !! 0%nat = Some (1 * Incremental._capital self))
      by (apply ones_lookup; lia).
    destruct (iter_index0 (Incremental._lock_in self) (Incremental._min_capital_req self)
                (Incremental._multiplier self) (Incremental._min_risk_req self)
                (Incremental._rr self) (Incremental._rf self)
                (length (Incremental._rr self)) (inc_discount pow self)
                (length (Incremental._rr self) - 1) (inc_views f0)
                (1 * Incremental._capital self))
      as (Hb & H1 & H2 & H3 & H4);
      [apply inc_init_sized | exact HP0 | exact HR0 | lra | exact Hm1 |].
    unfold inc_iter. fold f0. rewrite H1, H2, H3, H4.
    split; [now rewrite <- HP0 |]. split; [reflexivity |]. split; [reflexivity |].
    split; [apply zeros_lookup; lia |].
    split; [reflexivity |]. split; [exact HR0 |].
    subst f1. unfold Incremental.update_floor, Incremental.update_ref_capital.
    cbn [Incremental.portfolio_view Incremental.ref_capital_view].
    destruct (Qgeb _ _); rewrite rd_insert_ne by lia; exact Hb.
  - intros self Hwf Hc Hm0 Hm1 Hn t0.
    eexists. split; [apply (vec_run pow self Hwf) |].
    assert (HP0 : Core.sP (vec_init pow self) !! 0%nat = Some (1 * Vectorized._capital self))
      by (apply ones_lookup; lia).
    assert (HR0 : Core.sR (vec_init pow self) !! 0%nat = Some (1 * Vectorized._capital self))
      by (apply ones_lookup; lia).
    destruct (iter_index0 (Vectorized._lock_in self) (Vectorized._min_capital_req self)
                (Vectorized._multiplier self) (Vectorized._min_risk_req self)
                (Vectorized._rr self) (Vectorized._rf self)
                (length (Vectorized._rr self)) (vec_discount pow self)
                (length (Vectorized._rr self) - 1) (vec_init pow self)
                (1 * Vectorized._capital self))
      as (Hb & H1 & H2 & H3 & H4);
      [now apply vec_init_sized | exact HP0 | exact HR0 | lra | exact Hm1 |].
    cbn [vec_pack Vectorized.portfolio Vectorized.ref_capital Vectorized.floor
         Vectorized.margin_trigger Vectorized._portfolio Vectorized._ref_capital
         Vectorized._floor Vectorized._margin_trigger item].
    unfold vec_iter. rewrite H1, H2, H3, H4.
    split; [exact (eq_sym HP0) |]. split; [reflexivity |]. split; [reflexivity |].
    split; [apply zeros_lookup; lia |].
    split; [reflexivity |]. split; [exact HR0 |].
    intros Hn2. destruct Hwf as [Hrf Hfreq].
    pose proof (vec_init_sized pow self (conj Hrf Hfreq)) as Hs.
    assert (HD : length (vec_discounts pow self) = length (Vectorized._rr self))
      by (unfold vec_discounts; now rewrite length_fmap).
    subst t0.
    change (Vectorized.run_init pow self)
      with (vec_pack self (vec_init pow self) (vec_discounts pow self)
                     (Vectorized._compounded_period self)).
    rewrite (vec_update_ref_capital self (length (Vectorized._rr self)))
      by (auto; lia).
    cbn [mbind result_bind].
    rewrite (vec_update_floor self (length (Vectorized._rr self)))
      by (auto using ratchet_sized; lia).
    eexists. split; [reflexivity |].
    unfold Vectorized._should_inject_liquidity, getitem.
    cbn [vec_pack Vectorized._portfolio Vectorized._ref_capital
         Vectorized._min_capital_req Core.raise_floor Core.ratchet Core.sP Core.sR].
    rewrite list_lookup_insert_ne by lia. rewrite HP0, HR0.
    cbn [mbind mret result_bind result_ret]. f_equal.
    unfold Core.breached in Hb. cbn [Nat.sub] in Hb.
    rewrite (rd_lookup _ _ _ HP0), (rd_lookup _ _ _ HR0) in Hb. exact Hb.
Qed.

(** * The code on concrete inputs *)

Local Set Warnings "-inexact-float".

Example inc_crash_constructed :
  Incremental.__init__ 100 1 [0; -10; -10; 0] [0; 0; 0; 0] [0; 0; 0; 0]
                       (1 # 8) (1 # 4) (1 # 2) 1 = Ok inc_crash.
Proof. reflexivity. Qed.

Example vec_crash_constructed :
  Vectorized.__init__ 100 1 [0; -10; -10; 0] [0; 0; 0; 0] [0; 0; 0; 0]
                      (1 # 8) (1 # 4) (1 # 2) 1 = Ok vec_crash.
Proof. reflexivity. Qed.

Example vec_single_constructed :
  Vectorized.__init__ 100 1 [0] [252] [0] (1 # 8) (1 # 4) (1 # 2) 1 = Ok vec_single.
Proof. reflexivity. Qed.

Lemma inc_crash_wf : Incremental.wf inc_crash.
Proof. split; reflexivity. Defined.

Lemma vec_crash_wf : Vectorized.wf vec_crash.
Proof. split; [reflexivity | differ]. Defined.

Lemma vec_single_wf : Vectorized.wf vec_single.
Proof. split; [reflexivity | differ]. Defined.


(** C1 fails in tipp_.pyx: with [capital = 100], [min_capital_req = 1/2],
    [rf = [252]] and [freq = 1], [floor[0]] is 25 after [run], not 50. *)
Lemma vectorized_floor0_discounted :
  exists t out x,
    Vectorized.__init__ 100 1 [0] [252] [0] (1 # 8) (1 # 4) (1 # 2) 1 = Ok t
    /\ Vectorized.run pow_int t = Ok out
    /\ item (Vectorized.floor out) 0 = Some x
    /\ x == 25
    /\ ~ x == Vectorized._capital t * Vectorized._min_capital_req t.
Proof.
  do 3 eexists. split; [reflexivity |]. split; [run_code |]. split; [run_code |].
  split; [reflexivity | differ].
Qed.


(** C3 fails as stated.  The arrays are reset: in tipp_.pyx the second call
    on the object that the first call left is the call on the newly
    constructed object with nothing but its [compounded_period] replaced by
    the decremented one.  And in part_000, on the same input, the second
    call leaves what the first left. *)
Lemma second_run_reassigns_arrays :
  (exists t first,
     Vectorized.__init__ 100 1 [0; 0] [252; 252] [0; 0] (1 # 8) (1 # 4) (1 # 2) 1 = Ok t
     /\ Vectorized.run pow_int t = Ok first
     /\ Vectorized.portfolio t = None
     /\ (exists l, Vectorized.portfolio first = Some l)
     /\ Vectorized.run pow_int first
        = Vectorized.run pow_int
            (Vectorized.set_compounded_period t (Vectorized.compounded_period first)))
  /\ (exists t,
     Incremental.__init__ 100 1 [0; 0] [252; 252] [0; 0] (1 # 8) (1 # 4) (1 # 2) 1 = Ok t
     /\ Incremental.run pow_int (Incremental.run pow_int t) = Incremental.run pow_int t).
Proof.
  split.
  - do 2 eexists. split; [reflexivity |]. split; [run_code |].
    split; [reflexivity |]. split; [eexists; run_code | run_code].
  - eexists. split; [reflexivity | run_code].
Qed.


(** C4 fails in part_000: with two periods and [freq = 1], the accessor
    returns 2 after [run], not [1 / freq = 1].  In tipp_.pyx it fails with
    one period, where no iteration runs and the accessor returns the value
    it had before [run]; and it fails in binary64: with three periods and
    [freq = 10] the two subtractions [0.3 - 0.1 - 0.1] leave
    0.09999999999999998, which is below [1 / freq = 0.1]. *)
Lemma period_after_run_not_reciprocal :
  (exists t,
     Incremental.__init__ 100 1 [0; 0] [0; 0] [0; 0] (1 # 8) (1 # 4) (1 # 2) 1 = Ok t
     /\ Incremental.compounded_period (Incremental.run pow_int t) == 2
     /\ ~ Incremental.compounded_period (Incremental.run pow_int t)
          == 1 / Incremental._freq t)
  /\ (exists out,
     Vectorized.run pow_int vec_single = Ok out
     /\ Vectorized.compounded_period out = Vectorized.compounded_period vec_single)
  /\ (exists out,
     B64.Vectorized.__init__ 100 1 [0; 0; 0] [0; 0; 0] [0; 0; 0] 0.125 0.25 0.5 10
     = Ok B64.vec_tenths
     /\ B64.Vectorized.run B64.pow_b64 B64.vec_tenths = Ok out
     /\ B64.Vectorized.compounded_period out = 0.09999999999999998
     /\ (B64.Vectorized.compounded_period out <? 1 / B64.Vectorized._freq B64.vec_tenths)
        = true)%float.
Proof.
  split; [| split].
  - eexists. split; [reflexivity |]. split; [reflexivity | differ].
  - eexists. split; run_code.
  - eexists. split; [run_code |]. split; [run_code |]. split; run_code.
Qed.






(** C5 fails in tipp_.pyx: with three periods, [rf = [252; 252; 252]] and
    [freq = 1], iteration 2 reads the discount factor [2^3 = 8] while the
    attribute [compounded_period] is 2 at that step. *)
Lemma vectorized_exponent_frozen :
  exists t before d,
    Vectorized.__init__ 100 1 [0; 0; 0] [252; 252; 252] [0; 0; 0]
                        (1 # 8) (1 # 4) (1 # 2) 1 = Ok t
    /\ Vectorized.run_loop pow_int t 1 = Ok before
    /\ item (Vectorized.discount before) 1 = Some d
    /\ d == 8
    /\ Vectorized.compounded_period before == 2
    /\ ~ d == pow_int (1 + 252 * Vectorized._freq t / 252)
                      (Vectorized.compounded_period before).
Proof.
  do 3 eexists. split; [reflexivity |]. split; [run_code |]. split; [run_code |].
  split; [reflexivity |]. split; [reflexivity | differ].
Qed.



(** The scenarios of the specification (section 8), with its numbers. *)

Example zero_volatility :
  exists t t' out' l l',
    Incremental.__init__ 100 1 [0; 0; 0; 0; 0] [0; 0; 0; 0; 0] [0; 0; 0; 0; 0]
                         (1 # 10) (2 # 10) (8 # 10) 252 = Ok t
    /\ Incremental.portfolio (Incremental.run pow_int t) = Some l
    /\ Forall (fun x => x == 100) l
    /\ Vectorized.__init__ 100 1 [0; 0; 0; 0; 0] [0; 0; 0; 0; 0] [0; 0; 0; 0; 0]
                           (1 # 10) (2 # 10) (8 # 10) 252 = Ok t'
    /\ Vectorized.run pow_int t' = Ok out'
    /\ Vectorized.portfolio out' = Some l'
    /\ Forall (fun x => x == 100) l'.
Proof.
  do 5 eexists. split; [reflexivity |]. split; [run_code |].
  split; [repeat (constructor; [reflexivity |]); constructor |].
  split; [reflexivity |]. split; [run_code |]. split; [run_code |].
  repeat (constructor; [reflexivity |]); constructor.
Qed.

Example construction_validation :
  Incremental.__init__ 100 1 [0; 0; 0; 0; 0] [0; 0; 0; 0] [0; 0; 0; 0; 0]
                       (1 # 10) (2 # 10) (8 # 10) 252
  = Raise (ValueError "All rate parameters must have the same length").
Proof. reflexivity. Qed.

Example forced_injection :
  exists t m p r,
    Incremental.__init__ 100 5 [0; -9 # 10; 0] [0; 0; 0] [0; 0; 0]
                         (1 # 10) (2 # 10) (8 # 10) 1 = Ok t
    /\ item (Incremental.margin_trigger (Incremental.run pow_int t)) 2 = Some m
    /\ item (Incremental.portfolio (Incremental.run pow_int t)) 1 = Some p
    /\ item (Incremental.ref_capital (Incremental.run pow_int t)) 1 = Some r
    /\ m == 70 /\ p == r * (8 # 10).
Proof.
  do 4 eexists. split; [reflexivity |].
  split; [run_code |]. split; [run_code |]. split; [run_code |].
  split; reflexivity.
Qed.

(** The general theorems at concrete objects. *)

Lemma floor_index0_witness :
  (exists x,
     item (Incremental.floor (Incremental.run pow_int inc_crash)) 0 = Some x
     /\ x == 100 * (1 # 2))
  /\ (exists out x d rf_0,
     Vectorized.run pow_int vec_single = Ok out
     /\ item (Vectorized.floor out) 0 = Some x
     /\ item (Vectorized.discount out) 0 = Some d
     /\ [252] !! 0%nat = Some rf_0
     /\ d = pow_int (1 + rf_0 * 1 / 252) (of_size 1 / 1)
     /\ x = 100 * (1 # 2) / d).
Proof.
  split.
  - apply (proj1 (floor_index0 pow_int) inc_crash inc_crash_wf). cbn. lia.
  - apply (proj2 (floor_index0 pow_int) vec_single vec_single_wf). cbn. lia.
Defined.

Lemma compounded_period_after_run_witness :
  exists out,
    Vectorized.run pow_int vec_crash = Ok out
    /\ Vectorized.compounded_period vec_crash = of_size 4 / 1
    /\ Vectorized.compounded_period out = exponent_after 1 (of_size 4 / 1) (4 - 1).
Proof.
  apply (proj1 (proj2 (compounded_period_after_run pow_int))
           100 1 [0; -10; -10; 0] [0; 0; 0; 0] [0; 0; 0; 0] (1 # 8) (1 # 4) (1 # 2) 1
           vec_crash);
    [reflexivity | reflexivity | cbn; lia].
Defined.

Lemma discount_factor_exponent_witness :
  (exists p fl rf_prev,
     let f := Incremental.run_loop pow_int inc_crash (2 - 1) in
     Incremental.portfolio_view f !! (2 - 1)%nat = Some p
     /\ Incremental.floor_view f !! (2 - 1)%nat = Some fl
     /\ [0; 0; 0; 0] !! (2 - 1)%nat = Some rf_prev
     /\ Incremental.local_compounded_period f = exponent_after 1 (of_size 4 / 1) (2 - 1)
     /\ Incremental.discount_factor f
        = pow_int (1 + rf_prev * 1 / 252) (Incremental.local_compounded_period f)
     /\ Incremental.floor_view (Incremental.loop_body pow_int inc_crash 2 f) !! 2%nat
        = Some (if Qgtb (p * Incremental.discount_factor f) fl
                then p * Incremental.discount_factor f else fl))
  /\ (exists t t' p fl d rf_prev,
     Vectorized.run_loop pow_int vec_crash (2 - 1) = Ok t
     /\ Vectorized.loop_body 2 t = Ok t'
     /\ item (Vectorized.portfolio t) (2 - 1) = Some p
     /\ item (Vectorized.floor t) (2 - 1) = Some fl
     /\ item (Vectorized.discount t) (2 - 1) = Some d
     /\ [0; 0; 0; 0] !! (2 - 1)%nat = Some rf_prev
     /\ Vectorized.compounded_period t = exponent_after 1 (of_size 4 / 1) (2 - 1)
     /\ d = pow_int (1 + rf_prev * 1 / 252) (of_size 4 / 1)
     /\ item (Vectorized.floor t') 2 = Some (if Qgtb (p * d) fl then p * d else fl)).
Proof.
  split.
  - apply (proj1 (discount_factor_exponent pow_int 2) inc_crash inc_crash_wf); cbn; lia.
  - apply (proj2 (discount_factor_exponent pow_int 2) vec_crash vec_crash_wf); cbn; lia.
Defined.




Lemma benchmark_unused_witness :
  match Incremental.__init__ 100 1 [0; -10; -10; 0] [0; 0; 0; 0] [0; 0; 0; 0]
                             (1 # 8) (1 # 4) (1 # 2) 1,
        Incremental.__init__ 100 1 [0; -10; -10; 0] [0; 0; 0; 0] [1; 2; 3; 4]
                             (1 # 8) (1 # 4) (1 # 2) 1 with
  | Ok t, Ok t' =>
      inc_outputs (Incremental.run pow_int t) = inc_outputs (Incremental.run pow_int t')
  | Raise e, Raise e' => e = e'
  | _, _ => False
  end
  /\ match Vectorized.__init__ 100 1 [0; -10; -10; 0] [0; 0; 0; 0] [0; 0; 0; 0]
                               (1 # 8) (1 # 4) (1 # 2) 1,
           Vectorized.__init__ 100 1 [0; -10; -10; 0] [0; 0; 0; 0] [1; 2; 3; 4]
                               (1 # 8) (1 # 4) (1 # 2) 1 with
     | Ok t, Ok t' =>
         match Vectorized.run pow_int t, Vectorized.run pow_int t' with
         | Ok out, Ok out' => vec_outputs out = vec_outputs out'
         | Raise e, Raise e' => e = e'
         | _, _ => False
         end
     | Raise e, Raise e' => e = e'
     | _, _ => False
     end.
Proof. apply benchmark_unused. reflexivity. Defined.

Lemma index0_untouched_witness :
  item (Incremental.portfolio (Incremental.run pow_int inc_crash)) 0 = Some (1 * 100)
  /\ item (Incremental.margin_trigger (Incremental.run pow_int inc_crash)) 0 = Some 0
  /\ exists out,
       Vectorized.run pow_int vec_crash = Ok out
       /\ item (Vectorized.portfolio out) 0 = Some (1 * 100)
       /\ item (Vectorized.margin_trigger out) 0 = Some 0.
Proof.
  destruct (proj1 (index0_untouched pow_int) inc_crash inc_crash_wf)
    as (_ & _ & _ & HM & HP & _); [reflexivity | discriminate | discriminate | cbn; lia |].
  destruct (proj2 (index0_untouched pow_int) vec_crash vec_crash_wf)
    as (out & Hrun & _ & _ & _ & HM' & HP' & _);
    [reflexivity | discriminate | discriminate | cbn; lia |].
  split; [exact HP |]. split; [exact HM |].
  exists out. auto.
Defined.

(** * Further properties of the two implementations *)

(** * More facts about the shared recurrence *)
Section OutputFacts.
Variables (lock_in mcr multiplier mrr : Q) (rr rf : list Q).

Import Core.

Local Abbreviation breached := (Core.breached mcr).
Local Abbreviation shortfall := (Core.shortfall mcr).
Local Abbreviation alloc := (Core.alloc multiplier mrr).
Local Abbreviation prepare := (Core.prepare lock_in mcr).
Local Abbreviation step := (Core.step lock_in mcr multiplier mrr rr rf).
Local Abbreviation iter := (Core.iter lock_in mcr multiplier mrr rr rf).

Variables (n : nat) (d : nat -> Q) (s0 : series).
Hypothesis s0_sized : sized n s0.

Lemma iter_P_at (k i : nat) :
  (1 <= i)%nat -> (i <= k)%nat -> (i < n)%nat ->
  exists p fl,
    sP (iter d k s0) !! (i - 1)%nat = Some p
    /\ sF (iter d k s0) !! (i - 1)%nat = Some fl
    /\ sP (iter d i s0) !! i = Some (settled multiplier mrr p fl (rd rr i) (rd rf i)).
Proof.
  intros Hi Hk Hn. destruct i as [| j]; [lia |].
  destruct (iter_sized lock_in mcr multiplier mrr rr rf n d j s0 s0_sized)
    as (HP & HR & HM & HF).
  pose proof (step_P_prev lock_in mcr multiplier mrr rr rf (d (S j)) (S j) (iter d j s0)
                ltac:(lia) ltac:(lia)) as H1.
  pose proof (prepare_P_prev lock_in mcr (d (S j)) (S j) (iter d j s0)
                ltac:(lia) ltac:(lia)) as H2.
  pose proof (step_P_at lock_in mcr multiplier mrr rr rf (d (S j)) (S j) (iter d j s0)
                ltac:(lia)) as H3.
  rewrite <- H2 in H1. rewrite <- iter_S in H1, H3.
  set (s' := prepare (d (S j)) (S j) (iter d j s0)) in *.
  unfold Core.alloc in H3.
  replace (S j - 1)%nat with j in * by lia.
  exists (rd (sP s') j), (rd (sF s') j).
  split; [| split].
  - rewrite iter_P_stable by lia. exact H1.
  - rewrite iter_F_stable by lia.
    subst s'. rewrite prepare_eq by lia. cbn [sF].
    rewrite rd_insert_ne by lia. apply lookup_rd. lia.
  - exact H3.
Qed.

(** What the run leaves in [portfolio[i]]: the stored value, corrected by the
    injection of iteration [i + 1] when there is one. *)
Lemma iter_P_final (k i : nat) :
  (i <= k)%nat -> (i < n)%nat ->
  let v := rd (sP (iter d i s0)) i in
  let r := rd (sR (iter d i s0)) i in
  sR (iter d k s0) !! i = Some r
  /\ sP (iter d k s0) !! i
     = Some (if decide (i < k)%nat
             then if Qltb v (r * mcr) then v + (r * mcr - v) else v
             else v).
Proof.
  intros Hk Hn v r.
  destruct (iter_sized lock_in mcr multiplier mrr rr rf n d i s0 s0_sized)
    as (HP & HR & HM & HF).
  split; [rewrite iter_R_stable by lia; apply lookup_rd; lia |].
  destruct (decide (i < k)%nat) as [Hlt | Hge].
  - pose proof (step_P_prev lock_in mcr multiplier mrr rr rf (d (S i)) (S i) (iter d i s0)
                  ltac:(lia) ltac:(lia)) as H1.
    rewrite <- iter_S in H1. unfold Core.breached, Core.shortfall in H1.
    replace (S i - 1)%nat with i in H1 by lia.
    rewrite iter_P_stable by lia. exact H1.
  - replace k with i by lia. apply lookup_rd. lia.
Qed.

(** Without an injection the reference capital follows the lock-in rule. *)
Lemma iter_ratchet (k i : nat) :
  (1 <= i)%nat -> (i <= k)%nat -> (i < n)%nat -> sM s0 !! i = Some 0 ->
  exists p r r' m,
    sP (iter d k s0) !! (i - 1)%nat = Some p
    /\ sR (iter d k s0) !! (i - 1)%nat = Some r
    /\ sR (iter d k s0) !! i = Some r'
    /\ sM (iter d k s0) !! i = Some m
    /\ 0 <= m
    /\ (m == 0 -> r' = if Qgeb p ((1 + lock_in) * r) then p else r).
Proof.
  intros Hi Hk Hn H0.
  destruct (iter_injection_at lock_in mcr multiplier mrr rr rf n d k i s0
              s0_sized Hi Hk Hn) as (_ & Hr & Hp' & Hr' & Hm).
  cbv zeta in Hr, Hp', Hr', Hm. rewrite H0 in Hm.
  unfold Core.breached, Core.shortfall in Hp', Hr', Hm.
  set (p := rd (sP (iter d (i - 1) s0)) (i - 1)) in *.
  set (r := rd (sR (iter d (i - 1) s0)) (i - 1)) in *.
  destruct (Qltb p (r * mcr)) eqn:E.
  - apply Qltb_lt in E. do 4 eexists.
    split; [exact Hp' |]. split; [exact Hr |]. split; [exact Hr' |].
    split; [exact Hm |]. split; [lra |]. intros Hz. lra.
  - do 4 eexists.
    split; [exact Hp' |]. split; [exact Hr |]. split; [exact Hr' |].
    split; [exact Hm |]. split; [lra |]. reflexivity.
Qed.


End OutputFacts.

Lemma for_in_app {S : Type} (body : nat -> S -> result S) (l1 l2 : list nat) (s : S) :
  for_in body (l1 ++ l2) s
  = match for_in body l1 s with Ok s' => for_in body l2 s' | Raise e => Raise e end.
Proof.
  revert s. induction l1 as [| j l1 IH]; intros s; simpl; [reflexivity |].
  destruct (body j s); [apply IH | reflexivity].
Qed.

Lemma seq_split (a b : nat) :
  seq 1 (a + S b) = seq 1 a ++ S a :: seq (S (S a)) b.
Proof. now rewrite seq_app. Qed.

Lemma step_sized2 (lock_in mcr multiplier mrr : Q) (rr rf : list Q)
    (n m : nat) (d : Q) (i : nat) (s : Core.series) :
  sized2 n m s -> sized2 n m (Core.step lock_in mcr multiplier mrr rr rf d i s).
Proof.
  intros (HP & HR & HM & HF).
  unfold Core.step, Core.settle, Core.prepare, Core.inject, sized2.
  destruct (Core.breached _ _ _);
    cbn [Core.raise_floor Core.ratchet Core.sP Core.sR Core.sM Core.sF];
    rewrite ?length_insert; auto.
Qed.

Lemma iter_sized2 (lock_in mcr multiplier mrr : Q) (rr rf : list Q)
    (n m : nat) (d : nat -> Q) (k : nat) (s0 : Core.series) :
  sized2 n m s0 -> sized2 n m (Core.iter lock_in mcr multiplier mrr rr rf d k s0).
Proof.
  intros H. induction k as [| k IH]; [exact H |].
  rewrite iter_S. now apply step_sized2.
Qed.

Section VectorizedRagged.
Variables (t : Vectorized.TIPP) (n m : nat) (D : list Q).
Hypothesis rr_len : length (Vectorized._rr t) = n.
Hypothesis rf_len : length (Vectorized._rf t) = m.
Hypothesis D_len : length D = m.
Hypothesis freq_nz : ~ Vectorized._freq t == 0.

Import Vectorized.

Ltac rag_simpl :=
  cbn [vec_pack _capital _multiplier _rr _rf _br _lock_in _min_risk_req _min_capital_req
       _freq _portfolio _ref_capital _margin_trigger _discount _floor _compounded_period
       set_portfolio set_ref_capital set_margin_trigger set_floor set_compounded_period
       Core.sP Core.sR Core.sM Core.sF mbind mret result_bind result_ret].
Ltac rag_read := rewrite ?getitem_rd by (rewrite ?length_insert; lia); rag_simpl.
Ltac rag_write := rewrite ?setitem_ok by (rewrite ?length_insert; lia); rag_simpl.

Lemma setitem_out (l : list Q) (i : nat) (x : Q) :
  (length l <= i)%nat -> setitem (Some l) i x = Raise IndexError.
Proof. intros H. unfold setitem. rewrite decide_False by lia. reflexivity. Qed.

Lemma getitem_out (l : list Q) (i : nat) :
  (length l <= i)%nat -> getitem (Some l) i = Raise IndexError.
Proof. intros H. unfold getitem. now rewrite (lookup_ge_None_2 l i H). Qed.

Lemma rag_update_ref_capital (i : nat) (s : Core.series) (c : Q) :
  sized2 n m s -> (1 <= i)%nat -> (i < n)%nat ->
  update_ref_capital i (vec_pack t s D c)
  = Ok (vec_pack t (Core.ratchet (_lock_in t) i s) D c).
Proof.
  intros (HP & HR & HM & HF) Hi Hn.
  unfold update_ref_capital, _should_update_lock_in. rag_simpl. rag_read.
  unfold Core.ratchet.
  destruct (Qgeb _ _); rag_read; rag_write; reflexivity.
Qed.

Lemma rag_update_floor (i : nat) (s : Core.series) (c : Q) :
  sized2 n m s -> (1 <= i)%nat -> (i < n)%nat -> (i < m)%nat ->
  update_floor i (vec_pack t s D c)
  = Ok (vec_pack t (Core.raise_floor (rd D (i - 1)) i s) D c).
Proof.
  intros (HP & HR & HM & HF) Hi Hn Hm.
  unfold update_floor, _should_update_floor. rag_simpl. rag_read.
  unfold Core.raise_floor.
  destruct (Qgtb _ _); rag_read; rag_write; reflexivity.
Qed.

(** The first index that [rf] does not cover stops the floor update. *)
Lemma rag_update_floor_raises (i : nat) (s : Core.series) (c : Q) :
  sized2 n m s -> (1 <= i)%nat -> (i < n)%nat -> (m <= i)%nat ->
  update_floor i (vec_pack t s D c) = Raise IndexError.
Proof.
  intros (HP & HR & HM & HF) Hi Hn Hm.
  unfold update_floor, _should_update_floor. rag_simpl.
  rewrite (getitem_rd (Core.sP s)) by lia. rag_simpl.
  destruct (decide (i - 1 < m)%nat) as [Hlt | Hge].
  - rewrite (getitem_rd D), !(getitem_rd (Core.sF s)) by lia. rag_simpl.
    destruct (Qgtb _ _); rag_simpl; rewrite setitem_out by lia; reflexivity.
  - rewrite (getitem_out D) by lia. reflexivity.
Qed.

Lemma rag_inject_liquidity (i : nat) (s : Core.series) (c : Q) :
  sized2 n m s -> (1 <= i)%nat -> (i < n)%nat ->
  inject_liquidity i (vec_pack t s D c)
  = Ok (vec_pack t (Core.inject (_min_capital_req t) i s) D c).
Proof.
  intros (HP & HR & HM & HF) Hi Hn.
  unfold inject_liquidity, _should_inject_liquidity. rag_simpl. rag_read.
  unfold Core.inject, Core.breached, Core.shortfall.
  destruct (Qltb _ _); [| reflexivity].
  rag_read. rag_write. rag_read. rag_write. rag_write. reflexivity.
Qed.

Lemma rag_update_portfolio (i : nat) (s : Core.series) (c : Q) :
  sized2 n m s -> (1 <= i)%nat -> (i < n)%nat -> (i < m)%nat ->
  update_portfolio i (vec_pack t s D c)
  = Ok (vec_pack t (Core.settle (_multiplier t) (_min_risk_req t) (_rr t) (_rf t) i s) D
                 (c - 1 / _freq t)).
Proof.
  intros (HP & HR & HM & HF) Hi Hn Hm.
  unfold update_portfolio, risk_allocation, _get_risk_allocation_mix,
    _update_portfolio_mix.
  rag_simpl. rag_read. rag_write.
  rewrite cdiv_ok by exact freq_nz. rag_simpl. reflexivity.
Qed.

Lemma prepare_sized2 (d : Q) (i : nat) (s : Core.series) :
  sized2 n m s -> sized2 n m (Core.prepare (_lock_in t) (_min_capital_req t) d i s).
Proof.
  intros (HP & HR & HM & HF). unfold Core.prepare, Core.inject, sized2.
  destruct (Core.breached _ _ _);
    cbn [Core.raise_floor Core.ratchet Core.sP Core.sR Core.sM Core.sF];
    rewrite ?length_insert; auto.
Qed.

Lemma ratchet_sized2 (i : nat) (s : Core.series) :
  sized2 n m s -> sized2 n m (Core.ratchet (_lock_in t) i s).
Proof.
  intros (HP & HR & HM & HF). unfold sized2, Core.ratchet.
  cbn [Core.sP Core.sR Core.sM Core.sF]. now rewrite length_insert.
Qed.

Lemma raise_floor_sized2 (d : Q) (i : nat) (s : Core.series) :
  sized2 n m s -> sized2 n m (Core.raise_floor d i s).
Proof.
  intros (HP & HR & HM & HF). unfold sized2, Core.raise_floor.
  cbn [Core.sP Core.sR Core.sM Core.sF]. now rewrite length_insert.
Qed.

Lemma rag_loop_body (i : nat) (s : Core.series) (c : Q) :
  sized2 n m s -> (1 <= i)%nat -> (i < n)%nat -> (i < m)%nat ->
  loop_body i (vec_pack t s D c)
  = Ok (vec_pack t
          (Core.step (_lock_in t) (_min_capital_req t) (_multiplier t) (_min_risk_req t)
                     (_rr t) (_rf t) (rd D (i - 1)) i s)
          D (c - 1 / _freq t)).
Proof.
  intros Hs Hi Hn Hm. unfold loop_body, before_allocation.
  rewrite rag_update_ref_capital by assumption. rag_simpl.
  rewrite rag_update_floor by (try apply ratchet_sized2; assumption). rag_simpl.
  rewrite rag_inject_liquidity
    by (try apply raise_floor_sized2; try apply ratchet_sized2; assumption).
  rag_simpl.
  rewrite rag_update_portfolio; [reflexivity | | assumption | assumption | assumption].
  now apply prepare_sized2.
Qed.

Lemma rag_loop_body_raises (i : nat) (s : Core.series) (c : Q) :
  sized2 n m s -> (1 <= i)%nat -> (i < n)%nat -> (m <= i)%nat ->
  loop_body i (vec_pack t s D c) = Raise IndexError.
Proof.
  intros Hs Hi Hn Hm. unfold loop_body, before_allocation.
  rewrite rag_update_ref_capital by assumption. rag_simpl.
  rewrite rag_update_floor_raises by (try apply ratchet_sized2; assumption).
  reflexivity.
Qed.

Lemma rag_for_in (d : nat -> Q) (k : nat) (s0 : Core.series) (c : Q) :
  sized2 n m s0 -> (k <= n - 1)%nat -> (k <= m - 1)%nat ->
  (forall i, d i = rd D (i - 1)) ->
  for_in loop_body (seq 1 k) (vec_pack t s0 D c)
  = Ok (vec_pack t
          (Core.iter (_lock_in t) (_min_capital_req t) (_multiplier t) (_min_risk_req t)
                     (_rr t) (_rf t) d k s0)
          D (exponent_after (_freq t) c k)).
Proof.
  intros Hs Hk Hk' Hd. induction k as [| k IH]; [reflexivity |].
  rewrite seq_S, for_in_snoc, IH by lia.
  rewrite rag_loop_body; [| now apply iter_sized2 | cbn; lia | cbn; lia | cbn; lia].
  rewrite iter_S, Hd. reflexivity.
Qed.

End VectorizedRagged.

Section VectorizedAnyLength.
Variable pow : Q -> Q -> Q.
Variable self : Vectorized.TIPP.
Hypothesis freq_nz : ~ Vectorized._freq self == 0.

Import Vectorized.

Lemma vec_init_sized2 :
  sized2 (length (_rr self)) (length (_rf self)) (vec_init pow self).
Proof.
  unfold sized2, vec_init, vec_discounts. cbn [Core.sP Core.sR Core.sM Core.sF].
  now rewrite !length_fmap, !length_replicate.
Qed.

Lemma vec_discounts_length : length (vec_discounts pow self) = length (_rf self).
Proof. unfold vec_discounts. now rewrite length_fmap. Qed.

Lemma rag_run_loop (k : nat) :
  (k <= length (_rr self) - 1)%nat -> (k <= length (_rf self) - 1)%nat ->
  run_loop pow self k
  = Ok (vec_pack self (vec_iter pow self k) (vec_discounts pow self)
                 (exponent_after (_freq self) (_compounded_period self) k)).
Proof.
  intros Hk Hk'. unfold run_loop.
  change (run_init pow self)
    with (vec_pack self (vec_init pow self) (vec_discounts pow self)
                   (_compounded_period self)).
  apply (rag_for_in self (length (_rr self)) (length (_rf self)));
    auto using vec_discounts_length, vec_init_sized2.
Qed.

(** [run] returns when [rf] covers [rr] (or there is nothing to iterate). *)
Lemma rag_run_returns :
  (length (_rr self) <= 1 \/ length (_rr self) <= length (_rf self))%nat ->
  run pow self
  = Ok (vec_pack self (vec_iter pow self (length (_rr self) - 1)) (vec_discounts pow self)
                 (exponent_after (_freq self) (_compounded_period self)
                                 (length (_rr self) - 1))).
Proof. intros H. unfold run. apply rag_run_loop; lia. Qed.

(** [run] raises when [rf] is shorter than [rr]. *)
Lemma rag_run_raises :
  (2 <= length (_rr self))%nat -> (length (_rf self) < length (_rr self))%nat ->
  run pow self = Raise IndexError.
Proof.
  intros H2 Hlt. unfold run, run_loop.
  set (n := length (_rr self)) in *. set (m := length (_rf self)) in *.
  replace (n - 1)%nat with ((Nat.max m 1 - 1) + S (n - 1 - Nat.max m 1))%nat by lia.
  rewrite seq_split, for_in_app.
  fold (run_loop pow self (Nat.max m 1 - 1)).
  rewrite rag_run_loop by (fold n; fold m; lia).
  cbn [for_in].
  rewrite (rag_loop_body_raises self n m);
    lazymatch goal with
    | |- sized2 _ _ _ =>
        unfold vec_iter; apply (iter_sized2 _ _ _ _ _ _ n m); apply vec_init_sized2
    | |- length (vec_discounts _ _) = _ => apply vec_discounts_length
    | |- (_ <= _)%nat => lia
    | |- (_ < _)%nat => lia
    | |- _ => reflexivity
    end.
Qed.

End VectorizedAnyLength.

(** X1.  The arrays [run] leaves.  In part_000 all four have the length of
    [rr].  In tipp_.pyx, where [rf] may have its own length, [run] returns
    whenever [freq] is not zero and [rr] has at most one element or is no
    longer than [rf]; [portfolio], [ref_capital] and [margin_trigger] then
    have the length of [rr], while [floor] and [discount] have the length of
    [rf]. *)
Theorem output_lengths (pow : Q -> Q -> Q) :
  (forall self : Incremental.TIPP,
     Incremental.wf self ->
     let out := Incremental.run pow self in
     exists P R M F,
       Incremental.portfolio out = Some P
       /\ Incremental.ref_capital out = Some R
       /\ Incremental.margin_trigger out = Some M
       /\ Incremental.floor out = Some F
       /\ length P = length (Incremental._rr self)
       /\ length R = length (Incremental._rr self)
       /\ length M = length (Incremental._rr self)
       /\ length F = length (Incremental._rr self))
  /\ (forall self : Vectorized.TIPP,
     ~ Vectorized._freq self == 0 ->
     (length (Vectorized._rr self) <= 1
      \/ length (Vectorized._rr self) <= length (Vectorized._rf self))%nat ->
     exists out P R M F D,
       Vectorized.run pow self = Ok out
       /\ Vectorized.portfolio out = Some P
       /\ Vectorized.ref_capital out = Some R
       /\ Vectorized.margin_trigger out = Some M
       /\ Vectorized.floor out = Some F
       /\ Vectorized.discount out = Some D
       /\ length P = length (Vectorized._rr self)
       /\ length R = length (Vectorized._rr self)
       /\ length M = length (Vectorized._rr self)
       /\ length F = length (Vectorized._rf self)
       /\ length D = length (Vectorized._rf self)).
Proof.
  split.
  - intros self _ out.
    destruct (inc_run_outputs pow self) as (HP & HR & HM & HF).
    destruct (iter_sized (Incremental._lock_in self) (Incremental._min_capital_req self)
                (Incremental._multiplier self) (Incremental._min_risk_req self)
                (Incremental._rr self) (Incremental._rf self)
                (length (Incremental._rr self)) (inc_discount pow self)
                (length (Incremental._rr self) - 1) _ (inc_init_sized pow self))
      as (H1 & H2 & H3 & H4).
    do 4 eexists. repeat (split; [eassumption |]). exact H4.
  - intros self Hfreq Hlen.
    destruct (iter_sized2 (Vectorized._lock_in self) (Vectorized._min_capital_req self)
                (Vectorized._multiplier self) (Vectorized._min_risk_req self)
                (Vectorized._rr self) (Vectorized._rf self)
                (length (Vectorized._rr self)) (length (Vectorized._rf self))
                (vec_discount pow self) (length (Vectorized._rr self) - 1) _
                (vec_init_sized2 pow self))
      as (H1 & H2 & H3 & H4).
    do 6 eexists.
    split; [apply (rag_run_returns pow self Hfreq Hlen) |].
    cbn [vec_pack Vectorized.portfolio Vectorized.floor Vectorized.ref_capital
         Vectorized.margin_trigger Vectorized.discount Vectorized._portfolio
         Vectorized._floor Vectorized._ref_capital Vectorized._margin_trigger
         Vectorized._discount].
    do 5 (split; [reflexivity |]).
    repeat (split; [assumption |]). apply vec_discounts_length.
Qed.

(** X2.  In tipp_.pyx, on an object whose [rf] is shorter than its [rr]
    (which the constructor accepts), [run] raises [IndexError] as soon as
    [rr] has two elements or more. *)
Theorem run_index_error (pow : Q -> Q -> Q) (self : Vectorized.TIPP) :
  ~ Vectorized._freq self == 0 ->
  (2 <= length (Vectorized._rr self))%nat ->
  (length (Vectorized._rf self) < length (Vectorized._rr self))%nat ->
  Vectorized.run pow self = Raise IndexError.
Proof. intros Hfreq H2 Hlt. now apply rag_run_raises. Qed.

(** X3.  [run] writes no configuration attribute and no input series:
    capital, multiplier, [rr], [rf], [br], lock_in, min_risk_req,
    min_capital_req and freq are after [run] what they were before.  In
    tipp_.pyx the accessor [discount] then returns, at every index [j] of
    [rf], [pow (1 + rf[j] * freq / 252) c] with [c] the value of
    [compounded_period] before the call. *)
Theorem run_keeps_configuration (pow : Q -> Q -> Q) :
  (forall self : Incremental.TIPP,
     inc_config (Incremental.run pow self) = inc_config self)
  /\ (forall self : Vectorized.TIPP,
     ~ Vectorized._freq self == 0 ->
     (length (Vectorized._rr self) <= 1
      \/ length (Vectorized._rr self) <= length (Vectorized._rf self))%nat ->
     exists out,
       Vectorized.run pow self = Ok out
       /\ vec_config out = vec_config self
       /\ forall j rf_j,
            Vectorized._rf self !! j = Some rf_j ->
            item (Vectorized.discount out) j
            = Some (pow (1 + rf_j * Vectorized._freq self / 252)
                        (Vectorized.compounded_period self))).
Proof.
  split; [reflexivity |].
  intros self Hfreq Hlen. eexists.
  split; [apply (rag_run_returns pow self Hfreq Hlen) |].
  split; [reflexivity |].
  intros j rf_j Hj.
  cbn [vec_pack Vectorized.discount Vectorized._discount item].
  unfold vec_discounts. now rewrite list_lookup_fmap, Hj.
Qed.

(** X4.  With a single period the loop body never runs and [run] leaves the
    arrays of its initialisation.  In part_000: [capital], [capital], [0] and
    [capital * min_capital_req], each multiplied by the [1] of [np.ones].  In
    tipp_.pyx, for [rr] of length 0 or 1 and [rf] of any length: [run]
    returns, [floor] is [capital * min_capital_req / discount] elementwise
    over [rf], and [compounded_period] is not decremented. *)
Theorem short_series (pow : Q -> Q -> Q) :
  (forall self : Incremental.TIPP,
     Incremental.wf self -> length (Incremental._rr self) = 1%nat ->
     let out := Incremental.run pow self in
     Incremental.portfolio out = Some [1 * Incremental._capital self]
     /\ Incremental.ref_capital out = Some [1 * Incremental._capital self]
     /\ Incremental.margin_trigger out = Some [0]
     /\ Incremental.floor out
        = Some [1 * (Incremental._capital self * Incremental._min_capital_req self)])
  /\ (forall self : Vectorized.TIPP,
     (length (Vectorized._rr self) <= 1)%nat ->
     exists out,
       Vectorized.run pow self = Ok out
       /\ Vectorized.portfolio out
          = Some (replicate (length (Vectorized._rr self)) (1 * Vectorized._capital self))
       /\ Vectorized.ref_capital out
          = Some (replicate (length (Vectorized._rr self)) (1 * Vectorized._capital self))
       /\ Vectorized.margin_trigger out
          = Some (replicate (length (Vectorized._rr self)) 0)
       /\ Vectorized.floor out
          = Some ((fun rf_j =>
                     Vectorized._capital self * Vectorized._min_capital_req self
                     / pow (1 + rf_j * Vectorized._freq self / 252)
                           (Vectorized.compounded_period self))
                    <$> Vectorized._rf self)
       /\ Vectorized.compounded_period out = Vectorized.compounded_period self).
Proof.
  split.
  - intros self _ Hn out. subst out.
    unfold Incremental.run, Incremental.run_loop, Incremental.run_init,
      Incremental.portfolio, Incremental.ref_capital, Incremental.margin_trigger,
      Incremental.floor.
    rewrite Hn.
    cbn [Nat.sub seq fold_left Incremental._portfolio Incremental._ref_capital
         Incremental._margin_trigger Incremental._floor Incremental.portfolio_view
         Incremental.ref_capital_view Incremental.margin_trigger_view
         Incremental.floor_view].
    repeat split.
  - intros self Hn. eexists.
    split.
    + unfold Vectorized.run, Vectorized.run_loop.
      replace (length (Vectorized._rr self) - 1)%nat with 0%nat by lia. reflexivity.
    + unfold Vectorized.run_init.
      cbn [Vectorized.portfolio Vectorized.ref_capital Vectorized.margin_trigger
           Vectorized.floor Vectorized.compounded_period Vectorized.set_floor
           Vectorized.set_portfolio Vectorized.set_ref_capital
           Vectorized.set_margin_trigger Vectorized.set_discount
           Vectorized._portfolio Vectorized._ref_capital Vectorized._margin_trigger
           Vectorized._floor Vectorized._compounded_period Vectorized._capital
           Vectorized._min_capital_req Vectorized._rr Vectorized._rf Vectorized._freq].
      rewrite !fmap_replicate. repeat (split; [reflexivity |]).
      split; [| reflexivity].
      f_equal. rewrite <- list_fmap_compose. reflexivity.
Qed.

Lemma iter_recurrence (lock_in mcr multiplier mrr : Q) (rr rf : list Q)
    (n : nat) (d : nat -> Q) (s0 : Core.series) (k i : nat) :
  Core.sized n s0 -> (1 <= i)%nat -> (i <= k)%nat -> (i < n)%nat ->
  let fin := Core.iter lock_in mcr multiplier mrr rr rf d k s0 in
  exists p fl r v,
    Core.sP fin !! (i - 1)%nat = Some p
    /\ Core.sF fin !! (i - 1)%nat = Some fl
    /\ Core.sR fin !! i = Some r
    /\ v = settled multiplier mrr p fl (rd rr i) (rd rf i)
    /\ Core.sP fin !! i
       = Some (if decide (i < k)%nat
               then if Qltb v (r * mcr) then v + (r * mcr - v) else v
               else v).
Proof.
  intros Hs Hi Hk Hn fin.
  destruct (iter_P_at lock_in mcr multiplier mrr rr rf n d s0 Hs k i Hi Hk Hn)
    as (p & fl & Hp & Hfl & Hv).
  destruct (iter_P_final lock_in mcr multiplier mrr rr rf n d s0 Hs k i Hk Hn)
    as [HR HP]. cbv zeta in HR, HP.
  rewrite (rd_lookup _ _ _ Hv) in HP.
  exists p, fl. do 2 eexists.
  split; [exact Hp |]. split; [exact Hfl |]. split; [exact HR |].
  split; [reflexivity | exact HP].
Qed.

(** X5.  The portfolio recurrence, on the arrays [run] leaves.  For
    [1 <= i <= n - 1], with [p = portfolio[i-1]] and [fl = floor[i-1]], the
    value stored at [i] is
    [v = a * (1 + rr[i]) + (p - a) * (1 + rf[i])] where
    [a = fmax (fmin (multiplier * (p - fl)) p) (min_risk_req * p)];
    [portfolio[i]] is [v] at the last index, and before it [v] raised by the
    injection of the next iteration, [v + (ref_capital[i] * min_capital_req
    - v)], when [v < ref_capital[i] * min_capital_req]. *)
Theorem portfolio_recurrence (pow : Q -> Q -> Q) (i : nat) :
  (forall self : Incremental.TIPP,
     Incremental.wf self ->
     (1 <= i)%nat -> (i <= length (Incremental._rr self) - 1)%nat ->
     let out := Incremental.run pow self in
     exists p fl r rr_i rf_i v,
       item (Incremental.portfolio out) (i - 1) = Some p
       /\ item (Incremental.floor out) (i - 1) = Some fl
       /\ item (Incremental.ref_capital out) i = Some r
       /\ Incremental._rr self !! i = Some rr_i
       /\ Incremental._rf self !! i = Some rf_i
       /\ v = settled (Incremental._multiplier self) (Incremental._min_risk_req self)
                      p fl rr_i rf_i
       /\ item (Incremental.portfolio out) i
          = Some (if decide (i < length (Incremental._rr self) - 1)%nat
                  then if Qltb v (r * Incremental._min_capital_req self)
                       then v + (r * Incremental._min_capital_req self - v) else v
                  else v))
  /\ (forall self : Vectorized.TIPP,
     Vectorized.wf self ->
     (1 <= i)%nat -> (i <= length (Vectorized._rr self) - 1)%nat ->
     exists out p fl r rr_i rf_i v,
       Vectorized.run pow self = Ok out
       /\ item (Vectorized.portfolio out) (i - 1) = Some p
       /\ item (Vectorized.floor out) (i - 1) = Some fl
       /\ item (Vectorized.ref_capital out) i = Some r
       /\ Vectorized._rr self !! i = Some rr_i
       /\ Vectorized._rf self !! i = Some rf_i
       /\ v = settled (Vectorized._multiplier self) (Vectorized._min_risk_req self)
                      p fl rr_i rf_i
       /\ item (Vectorized.portfolio out) i
          = Some (if decide (i < length (Vectorized._rr self) - 1)%nat
                  then if Qltb v (r * Vectorized._min_capital_req self)
                       then v + (r * Vectorized._min_capital_req self - v) else v
                  else v)).
Proof.
  split.
  - intros self [Hrf _] Hi Hn out.
    destruct (inc_run_outputs pow self) as (HP & HR & HM & HF).
    subst out. rewrite HP, HR, HF. unfold item, inc_iter.
    destruct (iter_recurrence (Incremental._lock_in self)
                (Incremental._min_capital_req self) (Incremental._multiplier self)
                (Incremental._min_risk_req self) (Incremental._rr self)
                (Incremental._rf self) (length (Incremental._rr self))
                (inc_discount pow self) (inc_views (Incremental.run_init pow self))
                (length (Incremental._rr self) - 1) i
                (inc_init_sized pow self) Hi Hn ltac:(lia))
      as (p & fl & r & v & H1 & H2 & H3 & H4 & H5).
    exists p, fl, r, (rd (Incremental._rr self) i), (rd (Incremental._rf self) i), v.
    repeat (split; [first [assumption | apply lookup_rd; lia] |]). exact H5.
  - intros self Hwf Hi Hn. pose proof Hwf as [Hrf _].
    destruct (iter_recurrence (Vectorized._lock_in self)
                (Vectorized._min_capital_req self) (Vectorized._multiplier self)
                (Vectorized._min_risk_req self) (Vectorized._rr self)
                (Vectorized._rf self) (length (Vectorized._rr self))
                (vec_discount pow self) (vec_init pow self)
                (length (Vectorized._rr self) - 1) i
                (vec_init_sized pow self Hwf) Hi Hn ltac:(lia))
      as (p & fl & r & v & H1 & H2 & H3 & H4 & H5).
    eexists. exists p, fl, r, (rd (Vectorized._rr self) i), (rd (Vectorized._rf self) i), v.
    split; [apply (vec_run pow self Hwf) |].
    cbn [vec_pack Vectorized.portfolio Vectorized.floor Vectorized.ref_capital
         Vectorized._portfolio Vectorized._floor Vectorized._ref_capital item].
    repeat (split; [first [assumption | apply lookup_rd; lia] |]). exact H5.
Qed.

Ltac inc_core lemma self pow :=
  let n := constr:(length (Incremental._rr self)) in
  pose proof (lemma (Incremental._lock_in self) (Incremental._min_capital_req self)
                (Incremental._multiplier self) (Incremental._min_risk_req self)
                (Incremental._rr self) (Incremental._rf self) n
                (inc_discount pow self) (inc_views (Incremental.run_init pow self))
                (inc_init_sized pow self)).

Ltac vec_core lemma self pow Hwf :=
  let n := constr:(length (Vectorized._rr self)) in
  pose proof (lemma (Vectorized._lock_in self) (Vectorized._min_capital_req self)
                (Vectorized._multiplier self) (Vectorized._min_risk_req self)
                (Vectorized._rr self) (Vectorized._rf self) n
                (vec_discount pow self) (vec_init pow self)
                (vec_init_sized pow self Hwf)).

Ltac vec_outputs_simpl :=
  cbn [vec_pack Vectorized.portfolio Vectorized.floor Vectorized.ref_capital
       Vectorized.margin_trigger Vectorized.discount Vectorized.compounded_period
       Vectorized._portfolio Vectorized._floor Vectorized._ref_capital
       Vectorized._margin_trigger Vectorized._discount Vectorized._compounded_period item].

(** X6.  The lock-in rule, on the arrays [run] leaves.  For
    [1 <= i <= n - 1], [margin_trigger[i]] is never negative, and when it is
    zero [ref_capital[i]] is [portfolio[i-1]] if
    [portfolio[i-1] >= (1 + lock_in) * ref_capital[i-1]], and
    [ref_capital[i-1]] otherwise. *)
Theorem lock_in_ratchet (pow : Q -> Q -> Q) (i : nat) :
  (forall self : Incremental.TIPP,
     Incremental.wf self ->
     (1 <= i)%nat -> (i <= length (Incremental._rr self) - 1)%nat ->
     let out := Incremental.run pow self in
     exists p r r' m,
       item (Incremental.portfolio out) (i - 1) = Some p
       /\ item (Incremental.ref_capital out) (i - 1) = Some r
       /\ item (Incremental.ref_capital out) i = Some r'
       /\ item (Incremental.margin_trigger out) i = Some m
       /\ 0 <= m
       /\ (m == 0 ->
           r' = if Qgeb p ((1 + Incremental._lock_in self) * r) then p else r))
  /\ (forall self : Vectorized.TIPP,
     Vectorized.wf self ->
     (1 <= i)%nat -> (i <= length (Vectorized._rr self) - 1)%nat ->
     exists out p r r' m,
       Vectorized.run pow self = Ok out
       /\ item (Vectorized.portfolio out) (i - 1) = Some p
       /\ item (Vectorized.ref_capital out) (i - 1) = Some r
       /\ item (Vectorized.ref_capital out) i = Some r'
       /\ item (Vectorized.margin_trigger out) i = Some m
       /\ 0 <= m
       /\ (m == 0 ->
           r' = if Qgeb p ((1 + Vectorized._lock_in self) * r) then p else r)).
Proof.
  split.
  - intros self _ Hi Hn out.
    destruct (inc_run_outputs pow self) as (HP & HR & HM & HF).
    subst out. rewrite HP, HR, HM. unfold item, inc_iter.
    inc_core iter_ratchet self pow.
    apply H; [lia | lia | lia | apply zeros_lookup; lia].
  - intros self Hwf Hi Hn.
    vec_core iter_ratchet self pow Hwf.
    destruct (H (length (Vectorized._rr self) - 1)%nat i)
      as (p & r & r' & m & H'); [lia | lia | lia | apply zeros_lookup; lia |].
    eexists. exists p, r, r', m.
    split; [apply (vec_run pow self Hwf) |]. exact H'.
Qed.



Section BoundFacts.
Variables (lock_in mcr multiplier mrr : Q) (rr rf : list Q).

Import Core.

Local Abbreviation iter := (Core.iter lock_in mcr multiplier mrr rr rf).

Variables (n : nat) (d : nat -> Q) (s0 : series).
Hypothesis s0_sized : sized n s0.

(** The floor rule on what the run leaves: when iteration [i] injects
    nothing, [portfolio[i-1]] is still the value from which it computed its
    candidate. *)
Lemma iter_floor_at (k i : nat) :
  (1 <= i)%nat -> (i <= k)%nat -> (i < n)%nat -> sM s0 !! i = Some 0 ->
  exists p m fl fl',
    sP (iter d k s0) !! (i - 1)%nat = Some p
    /\ sM (iter d k s0) !! i = Some m
    /\ sF (iter d k s0) !! (i - 1)%nat = Some fl
    /\ sF (iter d k s0) !! i = Some fl'
    /\ (m == 0 -> fl' = if Qgtb (p * d i) fl then p * d i else fl).
Proof.
  intros Hi Hk Hn H0.
  destruct (iter_injection_at lock_in mcr multiplier mrr rr rf n d k i s0
              s0_sized Hi Hk Hn) as (_ & _ & Hp' & _ & Hm).
  cbv zeta in Hp', Hm. rewrite H0 in Hm.
  destruct i as [| j]; [lia |].
  replace (S j - 1)%nat with j in * by lia.
  destruct (iter_sized lock_in mcr multiplier mrr rr rf n d j s0 s0_sized)
    as (HP & HR & HM & HF).
  pose proof (step_F_at lock_in mcr multiplier mrr rr rf (d (S j)) (S j) (iter d j s0)
                ltac:(lia) ltac:(lia)) as H1.
  rewrite <- iter_S in H1. replace (S j - 1)%nat with j in H1 by lia.
  unfold Core.breached, Core.shortfall in Hp', Hm.
  replace (S j - 1)%nat with j in Hp', Hm by lia.
  set (p := rd (sP (iter d j s0)) j) in *.
  set (r := rd (sR (iter d j s0)) j) in *.
  set (fl := rd (sF (iter d j s0)) j) in *.
  assert (HF1 : sF (iter d k s0) !! j = Some fl)
    by (rewrite iter_F_stable by lia; apply lookup_rd; lia).
  assert (HF2 : sF (iter d k s0) !! S j
                = Some (if Qgtb (p * d (S j)) fl then p * d (S j) else fl))
    by (rewrite iter_F_stable by lia; exact H1).
  destruct (Qltb p (r * mcr)) eqn:E.
  - apply Qltb_lt in E.
    exists (p + (r * mcr - p)), (r * mcr - p), fl,
      (if Qgtb (p * d (S j)) fl then p * d (S j) else fl).
    repeat (split; [assumption |]).
    intros Hz. lra.
  - exists p, 0, fl, (if Qgtb (p * d (S j)) fl then p * d (S j) else fl).
    repeat (split; [assumption |]).
    intros _. reflexivity.
Qed.



End BoundFacts.

(** X10.  The floor rule, on the arrays [run] leaves.  For
    [1 <= i <= n - 1] with [margin_trigger[i]] zero (iteration [i] injected
    nothing, so that [portfolio[i-1]] is still the value from which it
    computed its candidate): [floor[i]] is [portfolio[i-1] * d] when that
    compares greater than [floor[i-1]], and [floor[i-1]] otherwise.  In
    part_000 [d = pow (1 + rf[i-1] * freq / 252) c] with [c] the running
    exponent, [n / freq] with [1 / freq] subtracted [i - 1] times; in
    tipp_.pyx [d = discount[i-1]]. *)
Theorem floor_recurrence (pow : Q -> Q -> Q) (i : nat) :
  (forall self : Incremental.TIPP,
     Incremental.wf self ->
     (1 <= i)%nat -> (i <= length (Incremental._rr self) - 1)%nat ->
     let out := Incremental.run pow self in
     exists p m fl fl' rf_prev,
       item (Incremental.portfolio out) (i - 1) = Some p
       /\ item (Incremental.margin_trigger out) i = Some m
       /\ item (Incremental.floor out) (i - 1) = Some fl
       /\ item (Incremental.floor out) i = Some fl'
       /\ Incremental._rf self !! (i - 1)%nat = Some rf_prev
       /\ (m == 0 ->
           let dsc := pow (1 + rf_prev * Incremental._freq self / 252)
                          (exponent_after (Incremental._freq self)
                             (of_size (length (Incremental._rr self))
                              / Incremental._freq self) (i - 1)) in
           fl' = if Qgtb (p * dsc) fl then p * dsc else fl))
  /\ (forall self : Vectorized.TIPP,
     Vectorized.wf self ->
     (1 <= i)%nat -> (i <= length (Vectorized._rr self) - 1)%nat ->
     exists out p m fl fl' dsc,
       Vectorized.run pow self = Ok out
       /\ item (Vectorized.portfolio out) (i - 1) = Some p
       /\ item (Vectorized.margin_trigger out) i = Some m
       /\ item (Vectorized.floor out) (i - 1) = Some fl
       /\ item (Vectorized.floor out) i = Some fl'
       /\ item (Vectorized.discount out) (i - 1) = Some dsc
       /\ (m == 0 -> fl' = if Qgtb (p * dsc) fl then p * dsc else fl)).
Proof.
  split.
  - intros self [Hrf _] Hi Hn out.
    destruct (inc_run_outputs pow self) as (HP & HR & HM & HF).
    subst out. rewrite HP, HM, HF. unfold item, inc_iter.
    inc_core iter_floor_at self pow.
    destruct (H (length (Incremental._rr self) - 1)%nat i)
      as (p & m & fl & fl' & H1 & H2 & H3 & H4 & H5);
      [lia | lia | lia | apply zeros_lookup; lia |].
    exists p, m, fl, fl', (rd (Incremental._rf self) (i - 1)).
    split; [exact H1 |]. split; [exact H2 |]. split; [exact H3 |].
    split; [exact H4 |]. split; [apply lookup_rd; lia |]. exact H5.
  - intros self Hwf Hi Hn. pose proof Hwf as [Hrf _].
    vec_core iter_floor_at self pow Hwf.
    destruct (H (length (Vectorized._rr self) - 1)%nat i)
      as (p & m & fl & fl' & H1 & H2 & H3 & H4 & H5);
      [lia | lia | lia | apply zeros_lookup; lia |].
    eexists. exists p, m, fl, fl', (vec_discount pow self i).
    split; [apply (vec_run pow self Hwf) |]. vec_outputs_simpl.
    split; [exact H1 |]. split; [exact H2 |]. split; [exact H3 |].
    split; [exact H4 |]. split; [| exact H5].
    unfold vec_discount. apply lookup_rd.
    unfold vec_discounts. rewrite length_fmap. lia.
Qed.


Lemma inc_run_loop_config (pow : Q -> Q -> Q) (self self' : Incremental.TIPP) (k : nat) :
  inc_config self = inc_config self' ->
  Incremental.run_loop pow self k = Incremental.run_loop pow self' k.
Proof.
  intros H. destruct self, self'. injection H as -> -> -> -> -> -> -> -> ->.
  induction k as [| k IH]; [reflexivity |].
  rewrite !inc_run_loop_S, IH. reflexivity.
Qed.

(** X14.  What [run] reads.  In part_000 the four arrays after [run] are a
    function of the configuration and the input series alone: two objects
    that agree on these leave the same arrays, whatever their arrays and
    their [compounded_period] were, and [run] keeps the attribute
    [compounded_period] of its object.  In tipp_.pyx two objects that agree
    on the configuration, on the input series and on [compounded_period]
    have the same result of [run], whatever their five arrays were. *)
Theorem run_reads_configuration (pow : Q -> Q -> Q) :
  (forall self self' : Incremental.TIPP,
     inc_config self = inc_config self' ->
     Incremental.portfolio (Incremental.run pow self)
     = Incremental.portfolio (Incremental.run pow self')
     /\ Incremental.ref_capital (Incremental.run pow self)
        = Incremental.ref_capital (Incremental.run pow self')
     /\ Incremental.margin_trigger (Incremental.run pow self)
        = Incremental.margin_trigger (Incremental.run pow self')
     /\ Incremental.floor (Incremental.run pow self)
        = Incremental.floor (Incremental.run pow self')
     /\ Incremental.compounded_period (Incremental.run pow self)
        = Incremental.compounded_period self)
  /\ (forall self self' : Vectorized.TIPP,
     vec_config self = vec_config self' ->
     Vectorized.compounded_period self = Vectorized.compounded_period self' ->
     Vectorized.run pow self = Vectorized.run pow self').
Proof.
  split.
  - intros self self' H.
    assert (Hrr : Incremental._rr self = Incremental._rr self').
    { unfold inc_config in H. now injection H. }
    unfold Incremental.run.
    cbn [Incremental.portfolio Incremental.ref_capital Incremental.margin_trigger
         Incremental.floor Incremental.compounded_period Incremental._portfolio
         Incremental._ref_capital Incremental._margin_trigger Incremental._floor
         Incremental._compounded_period].
    rewrite Hrr, (inc_run_loop_config pow self self' _ H). repeat split.
  - intros self self' H Hc. destruct self, self'.
    cbn [Vectorized.compounded_period Vectorized._compounded_period] in Hc.
    injection H as -> -> -> -> -> -> -> -> ->. subst. reflexivity.
Qed.

(** * The two implementations side by side *)






Section SameSeries.
Variables (lock_in mcr multiplier mrr : Q) (rr rf : list Q).

Import Core.

Local Abbreviation step := (Core.step lock_in mcr multiplier mrr rr rf).
Local Abbreviation iter := (Core.iter lock_in mcr multiplier mrr rr rf).








End SameSeries.


(** * The further properties on concrete inputs *)



Lemma inc_single_wf : Incremental.wf inc_single.
Proof. split; reflexivity. Defined.

Lemma output_lengths_witness :
  (exists P R M F,
     Incremental.portfolio (Incremental.run pow_int inc_crash) = Some P
     /\ Incremental.ref_capital (Incremental.run pow_int inc_crash) = Some R
     /\ Incremental.margin_trigger (Incremental.run pow_int inc_crash) = Some M
     /\ Incremental.floor (Incremental.run pow_int inc_crash) = Some F
     /\ length P = 4%nat /\ length R = 4%nat /\ length M = 4%nat /\ length F = 4%nat)
  /\ (exists out P R M F D,
     Vectorized.run pow_int vec_long = Ok out
     /\ Vectorized.portfolio out = Some P
     /\ Vectorized.ref_capital out = Some R
     /\ Vectorized.margin_trigger out = Some M
     /\ Vectorized.floor out = Some F
     /\ Vectorized.discount out = Some D
     /\ length P = 2%nat /\ length R = 2%nat /\ length M = 2%nat
     /\ length F = 3%nat /\ length D = 3%nat).
Proof.
  split.
  - apply (proj1 (output_lengths pow_int) inc_crash inc_crash_wf).
  - apply (proj2 (output_lengths pow_int) vec_long); [differ | cbn; lia].
Defined.

Lemma run_index_error_witness : Vectorized.run pow_int vec_short = Raise IndexError.
Proof. apply run_index_error; [differ | cbn; lia | cbn; lia]. Defined.

Lemma run_keeps_configuration_witness :
  exists out,
    Vectorized.run pow_int vec_crash = Ok out
    /\ vec_config out = vec_config vec_crash.
Proof.
  destruct (proj2 (run_keeps_configuration pow_int) vec_crash) as (out & H1 & H2 & _);
    [differ | cbn; lia |].
  exists out. now split.
Defined.

Lemma short_series_witness :
  Incremental.portfolio (Incremental.run pow_int inc_single) = Some [1 * 100]
  /\ exists out,
       Vectorized.run pow_int vec_single = Ok out
       /\ Vectorized.portfolio out = Some (replicate 1 (1 * 100))
       /\ Vectorized.compounded_period out = Vectorized.compounded_period vec_single.
Proof.
  split.
  - apply (proj1 (short_series pow_int) inc_single inc_single_wf). reflexivity.
  - destruct (proj2 (short_series pow_int) vec_single) as (out & H1 & H2 & _ & _ & _ & H3);
      [cbn; lia |].
    exists out. auto.
Defined.

Lemma portfolio_recurrence_witness :
  (exists v, item (Incremental.portfolio (Incremental.run pow_int inc_crash)) 2 = Some v)
  /\ (exists out v,
        Vectorized.run pow_int vec_crash = Ok out
        /\ item (Vectorized.portfolio out) 2 = Some v).
Proof.
  split.
  - destruct (proj1 (portfolio_recurrence pow_int 2) inc_crash inc_crash_wf)
      as (p & fl & r & rr_i & rf_i & v & _ & _ & _ & _ & _ & _ & H);
      [cbn; lia | cbn; lia |].
    eexists. exact H.
  - destruct (proj2 (portfolio_recurrence pow_int 2) vec_crash vec_crash_wf)
      as (out & p & fl & r & rr_i & rf_i & v & H0 & _ & _ & _ & _ & _ & _ & H);
      [cbn; lia | cbn; lia |].
    exists out. eexists. split; [exact H0 | exact H].
Defined.

Lemma lock_in_ratchet_witness :
  (exists p r r' m,
     item (Incremental.portfolio (Incremental.run pow_int inc_crash)) (3 - 1) = Some p
     /\ item (Incremental.ref_capital (Incremental.run pow_int inc_crash)) (3 - 1) = Some r
     /\ item (Incremental.ref_capital (Incremental.run pow_int inc_crash)) 3 = Some r'
     /\ item (Incremental.margin_trigger (Incremental.run pow_int inc_crash)) 3 = Some m
     /\ 0 <= m
     /\ (m == 0 -> r' = if Qgeb p ((1 + (1 # 8)) * r) then p else r))
  /\ (exists out p r r' m,
     Vectorized.run pow_int vec_crash = Ok out
     /\ item (Vectorized.portfolio out) (3 - 1) = Some p
     /\ item (Vectorized.ref_capital out) (3 - 1) = Some r
     /\ item (Vectorized.ref_capital out) 3 = Some r'
     /\ item (Vectorized.margin_trigger out) 3 = Some m
     /\ 0 <= m
     /\ (m == 0 -> r' = if Qgeb p ((1 + (1 # 8)) * r) then p else r)).
Proof.
  split.
  - apply (proj1 (lock_in_ratchet pow_int 3) inc_crash inc_crash_wf); cbn; lia.
  - apply (proj2 (lock_in_ratchet pow_int 3) vec_crash vec_crash_wf); cbn; lia.
Defined.



Lemma floor_recurrence_witness :
  (exists p m fl fl' rf_prev,
     item (Incremental.portfolio (Incremental.run pow_int inc_crash)) (1 - 1) = Some p
     /\ item (Incremental.margin_trigger (Incremental.run pow_int inc_crash)) 1 = Some m
     /\ item (Incremental.floor (Incremental.run pow_int inc_crash)) (1 - 1) = Some fl
     /\ item (Incremental.floor (Incremental.run pow_int inc_crash)) 1 = Some fl'
     /\ Incremental._rf inc_crash !! (1 - 1)%nat = Some rf_prev
     /\ (m == 0 ->
         let dsc := pow_int (1 + rf_prev * Incremental._freq inc_crash / 252)
                            (exponent_after (Incremental._freq inc_crash)
                               (of_size (length (Incremental._rr inc_crash))
                                / Incremental._freq inc_crash) (1 - 1)) in
         fl' = if Qgtb (p * dsc) fl then p * dsc else fl))
  /\ (exists out p m fl fl' dsc,
     Vectorized.run pow_int vec_crash = Ok out
     /\ item (Vectorized.portfolio out) (1 - 1) = Some p
     /\ item (Vectorized.margin_trigger out) 1 = Some m
     /\ item (Vectorized.floor out) (1 - 1) = Some fl
     /\ item (Vectorized.floor out) 1 = Some fl'
     /\ item (Vectorized.discount out) (1 - 1) = Some dsc
     /\ (m == 0 -> fl' = if Qgtb (p * dsc) fl then p * dsc else fl)).
Proof.
  split.
  - apply (proj1 (floor_recurrence pow_int 1) inc_crash inc_crash_wf); cbn; lia.
  - apply (proj2 (floor_recurrence pow_int 1) vec_crash vec_crash_wf); cbn; lia.
Defined.


Lemma run_reads_configuration_witness :
  Incremental.portfolio (Incremental.run pow_int (Incremental.run pow_int inc_crash))
  = Incremental.portfolio (Incremental.run pow_int inc_crash).
Proof.
  apply (proj1 (run_reads_configuration pow_int)
           (Incremental.run pow_int inc_crash) inc_crash).
  reflexivity.
Defined.

